(** * Peaks.js facade (src/main.js): zoom state machine, annotation API, start-up checks

    A shallow embedding of the public facade defined in [src/main.js]:
    [Peaks.init], the [segments] and [points] APIs and the [zoom] API.
    JavaScript values are modelled by [JsValue] over a heap of objects,
    stateful code by a state-and-exception monad over the instance, and the
    calls the facade makes on its collaborators (event emitter, waveform
    views) by a trace of effects kept in the instance. *)

From Stdlib Require Import ZArith List String Bool Lia SpecFloat.
Import ListNotations.

Local Open Scope string_scope.
Local Open Scope list_scope.

(** ** JavaScript values *)

Module Js.

(** Objects live on a heap and are denoted by their address. *)
Definition ref := nat.

(** IEEE-754 binary64, the only number type of the language. *)
Definition prec : Z := 53.
Definition emax : Z := 1024.
Definition number := spec_float.

Inductive JsValue : Type :=
| VUndefined
| VNull
| VBoolean (b : bool)
| VNumber (x : number)
| VString (s : string)
| VObject (r : ref)
| VNative (name : string).   (* a function of the host, such as console.log bound to console *)

(** What the facade can observe of an object: how it was constructed
    (the answer to [Array.isArray], [typeof] and [instanceof]), its named
    properties in insertion order, and its indexed elements. *)
Inductive ObjClass : Type :=
| ClsObject
| ClsArray
| ClsFunction
| ClsHTMLElement
| ClsHTMLMediaElement.

Record JsObject : Type := mkObject {
  cls : ObjClass;
  props : list (string * JsValue);
  elems : list JsValue
}.

Definition Heap := list JsObject.

Definition emptyObject : JsObject := mkObject ClsObject [] [].

Definition deref (h : Heap) (r : ref) : JsObject := nth r h emptyObject.

(** [new]: the fresh object goes to the end of the heap. *)
Definition alloc (o : JsObject) (h : Heap) : ref * Heap := (List.length h, h ++ [o]).

Fixpoint assoc (k : string) (l : list (string * JsValue)) : option JsValue :=
  match l with
  | [] => None
  | (k', v) :: l' => if String.eqb k k' then Some v else assoc k l'
  end.

(** [o.k] for an object: [undefined] when the key is absent. *)
Definition getProp (o : JsObject) (k : string) : JsValue :=
  match assoc k (props o) with
  | Some v => v
  | None => VUndefined
  end.

(** [v.k]. A property read on a primitive finds nothing; the facade reads
    properties only of stored records and of values it has found truthy,
    never of [undefined] or [null]. *)
Definition get (h : Heap) (v : JsValue) (k : string) : JsValue :=
  match v with
  | VObject r => getProp (deref h r) k
  | _ => VUndefined
  end.

Fixpoint assocSet (k : string) (v : JsValue) (l : list (string * JsValue))
  : list (string * JsValue) :=
  match l with
  | [] => [(k, v)]
  | (k', v') :: l' =>
      if String.eqb k k' then (k', v) :: l' else (k', v') :: assocSet k v l'
  end.

Definition setProp (k : string) (v : JsValue) (o : JsObject) : JsObject :=
  mkObject (cls o) (assocSet k v (props o)) (elems o).

Fixpoint update (r : ref) (f : JsObject -> JsObject) (h : Heap) : Heap :=
  match h, r with
  | [], _ => []
  | o :: h', O => f o :: h'
  | o :: h', S r' => o :: update r' f h'
  end.

(** [o.k = v] on the object at [r]. *)
Definition set (r : ref) (k : string) (v : JsValue) (h : Heap) : Heap :=
  update r (setProp k v) h.

Definition typeof (h : Heap) (v : JsValue) : string :=
  match v with
  | VUndefined => "undefined"
  | VNull => "object"
  | VBoolean _ => "boolean"
  | VNumber _ => "number"
  | VString _ => "string"
  | VObject r =>
      match cls (deref h r) with
      | ClsFunction => "function"
      | _ => "object"
      end
  | VNative _ => "function"
  end.

Definition isArray (h : Heap) (v : JsValue) : bool :=
  match v with
  | VObject r =>
      match cls (deref h r) with
      | ClsArray => true
      | _ => false
      end
  | _ => false
  end.

Definition arrayElems (h : Heap) (v : JsValue) : list JsValue :=
  match v with
  | VObject r => elems (deref h r)
  | _ => []
  end.

(** [v instanceof HTMLMediaElement] *)
Definition instanceofHTMLMediaElement (h : Heap) (v : JsValue) : bool :=
  match v with
  | VObject r =>
      match cls (deref h r) with
      | ClsHTMLMediaElement => true
      | _ => false
      end
  | _ => false
  end.

(** [v instanceof HTMLElement]; a media element is an element. *)
Definition instanceofHTMLElement (h : Heap) (v : JsValue) : bool :=
  match v with
  | VObject r =>
      match cls (deref h r) with
      | ClsHTMLElement | ClsHTMLMediaElement => true
      | _ => false
      end
  | _ => false
  end.

Definition zero : number := S754_zero false.

(** The number written as the integer literal [z]. *)
Definition num (z : Z) : number := binary_normalize prec emax z 0 false.

(** ToBoolean *)
Definition truthy (v : JsValue) : bool :=
  match v with
  | VUndefined | VNull => false
  | VBoolean b => b
  | VNumber x =>
      match x with
      | S754_zero _ | S754_nan => false
      | _ => true
      end
  | VString s =>
      match s with
      | EmptyString => false
      | _ => true
      end
  | VObject _ => true
  | VNative _ => true
  end.

(** [a === b]: no conversion; numbers by IEEE equality (NaN differs from
    itself, the two zeros are equal), objects by identity, host functions
    by the name that stands for their identity. *)
Definition strictEquals (a b : JsValue) : bool :=
  match a, b with
  | VUndefined, VUndefined => true
  | VNull, VNull => true
  | VBoolean x, VBoolean y => Bool.eqb x y
  | VNumber x, VNumber y => SFeqb x y
  | VString x, VString y => String.eqb x y
  | VObject x, VObject y => Nat.eqb x y
  | VNative x, VNative y => String.eqb x y
  | _, _ => false
  end.

(** [v > 0].  [undefined] converts to NaN, [null] to 0, a boolean to 0 or 1.
    The conversion of strings and objects (parsing, [valueOf]) is not
    modelled: they compare as NaN. *)
Definition greaterThanZero (v : JsValue) : bool :=
  match v with
  | VNumber x => SFltb zero x
  | VBoolean b => b
  | _ => false
  end.

(** [a[i]] on a list of elements: [undefined] outside the bounds. *)
Definition index (l : list JsValue) (i : Z) : JsValue :=
  if (i <? 0)%Z then VUndefined else nth (Z.to_nat i) l VUndefined.

(** argument [i] of a call, [undefined] when not passed *)
Definition arg (args : list JsValue) (i : nat) : JsValue := nth i args VUndefined.

Inductive ErrorKind : Type := KError | KTypeError | KRangeError.

(** A thrown exception: constructor, message text, and the value that the
    source appends to the message with [String(...)] ([undefined] if none). *)
Record JsError : Type := mkError {
  kind : ErrorKind;
  message : string;
  culprit : JsValue
}.

End Js.

Import Js.

(** ** State and exceptions *)

Inductive Outcome (S A : Type) : Type :=
| Return (a : A) (s : S)
| Throw (e : JsError) (s : S).

Arguments Return {S A} a s.
Arguments Throw {S A} e s.

Definition M (S A : Type) : Type := S -> Outcome S A.

Definition ret {S A} (a : A) : M S A := fun s => Return a s.

Definition throw {S A} (e : JsError) : M S A := fun s => Throw e s.

Definition bind {S A B} (m : M S A) (k : A -> M S B) : M S B :=
  fun s =>
    match m s with
    | Return a s' => k a s'
    | Throw e s' => Throw e s'
    end.

Declare Scope js_scope.
Delimit Scope js_scope with js.
Notation "x <- m ;; k" := (bind m (fun x => k))
  (at level 61, m at next level, right associativity) : js_scope.
Notation "m ;; k" := (bind m (fun _ => k))
  (at level 61, right associativity) : js_scope.

Definition gets {S A} (f : S -> A) : M S A := fun s => Return (f s) s.

Definition modify {S} (f : S -> S) : M S unit := fun s => Return tt (f s).

(** The state an outcome leaves behind, thrown or not. *)
Definition stateOf {S A} (o : Outcome S A) : S :=
  match o with
  | Return _ s => s
  | Throw _ s => s
  end.

(** [Array.prototype.forEach] with a callback that may throw. *)
Fixpoint forEach {S A B} (f : A -> M S B) (l : list A) : M S unit :=
  match l with
  | [] => ret tt
  | x :: l' => (f x ;; forEach f l')%js
  end.

(** ** The instance *)

(** What the facade does to the outside, in the order it does it. The
    bodies of the collaborators ([EventEmitter], [peaks/waveform/...]) are
    not part of [main.js]; a call on one of them is recorded with the
    argument it acts on. The two creation functions then do what their
    [Creator] says, and may throw; the other calls are taken to return. *)
Inductive Effect : Type :=
| Emit (topic : string) (args : list JsValue)  (* self.emit(topic, ...args) *)
| Called (f : JsValue) (args : list JsValue)   (* a function value applied *)
| CreateSegment (options : JsValue)            (* waveform.segments.createSegment *)
| RenderSegments                               (* waveform.segments.render *)
| UpdateSegments                               (* waveform.segments.updateSegments *)
| CreatePoint (options : JsValue)              (* waveform.points.createPoint *)
| RenderPoints.                                (* waveform.points.render *)

Record Peaks : Type := mkPeaks {
  heap : Heap;
  zoomLevels : list JsValue;        (* self.options.zoomLevels *)
  deprecationLogger : JsValue;      (* self.options.deprecationLogger *)
  logger : JsValue;                 (* self.logger *)
  container : JsValue;              (* self.container *)
  currentZoomLevel : Z;             (* self.currentZoomLevel *)
  overviewScale : JsValue;          (* self.waveform.waveformOverview.data.adapter.scale *)
  segments : list ref;              (* self.waveform.segments.segments *)
  points : list ref;                (* self.waveform.points.points *)
  trace : list Effect
}.

Definition withHeap (h : Heap) (p : Peaks) : Peaks :=
  mkPeaks h (zoomLevels p) (deprecationLogger p) (logger p) (container p)
    (currentZoomLevel p) (overviewScale p) (segments p) (points p) (trace p).

Definition withCurrentZoomLevel (z : Z) (p : Peaks) : Peaks :=
  mkPeaks (heap p) (zoomLevels p) (deprecationLogger p) (logger p) (container p)
    z (overviewScale p) (segments p) (points p) (trace p).

Definition withSegments (l : list ref) (p : Peaks) : Peaks :=
  mkPeaks (heap p) (zoomLevels p) (deprecationLogger p) (logger p) (container p)
    (currentZoomLevel p) (overviewScale p) l (points p) (trace p).

Definition withPoints (l : list ref) (p : Peaks) : Peaks :=
  mkPeaks (heap p) (zoomLevels p) (deprecationLogger p) (logger p) (container p)
    (currentZoomLevel p) (overviewScale p) (segments p) l (trace p).

Definition withTrace (t : list Effect) (p : Peaks) : Peaks :=
  mkPeaks (heap p) (zoomLevels p) (deprecationLogger p) (logger p) (container p)
    (currentZoomLevel p) (overviewScale p) (segments p) (points p) t.

Definition perform (e : Effect) : M Peaks unit :=
  modify (fun self => withTrace (trace self ++ [e]) self).

(** [self.emit(topic, ...args)] *)
Definition emit (topic : string) (args : list JsValue) : M Peaks unit :=
  perform (Emit topic args).

(** ** Zoom API (main.js, lines 546-614) *)

Module Zoom.

Local Open Scope Z_scope.
Local Open Scope js_scope.

(** [self.options.zoomLevels.length] *)
Definition zoomLevelsLength (self : Peaks) : Z := Z.of_nat (List.length (zoomLevels self)).

Definition setZoom (zoomLevelIndex : Z) : M Peaks unit :=
  len <- gets zoomLevelsLength ;;
  let zoomLevelIndex := if zoomLevelIndex >=? len then len - 1 else zoomLevelIndex in
  let zoomLevelIndex := if zoomLevelIndex <? 0 then 0 else zoomLevelIndex in
  previousZoomLevel <- gets currentZoomLevel ;;
  modify (withCurrentZoomLevel zoomLevelIndex) ;;
  levels <- gets zoomLevels ;;
  emit "zoom.update" [index levels zoomLevelIndex; index levels previousZoomLevel].

Definition zoomIn : M Peaks unit :=
  current <- gets currentZoomLevel ;;
  setZoom (current - 1).

Definition zoomOut : M Peaks unit :=
  current <- gets currentZoomLevel ;;
  setZoom (current + 1).

Definition getZoom : M Peaks Z := gets currentZoomLevel.

(** [overview: function zoomToOverview()] *)
Definition zoomToOverview : M Peaks unit :=
  scale <- gets overviewScale ;;
  levels <- gets zoomLevels ;;
  current <- gets currentZoomLevel ;;
  emit "zoom.update" [scale; index levels current].

(** [reset: function resetOverview()] *)
Definition resetOverview : M Peaks unit :=
  scale <- gets overviewScale ;;
  levels <- gets zoomLevels ;;
  current <- gets currentZoomLevel ;;
  emit "zoom.update" [index levels current; scale].

(** A call on the zoom API that moves between levels. *)
Inductive ZoomCall : Type :=
| CallSetZoom (zoomLevelIndex : Z)
| CallZoomIn
| CallZoomOut.

Definition zoomCall (c : ZoomCall) : M Peaks unit :=
  match c with
  | CallSetZoom i => setZoom i
  | CallZoomIn => zoomIn
  | CallZoomOut => zoomOut
  end.

(** The instance after each call of a sequence, in order. *)
Fixpoint zoomHistory (cs : list ZoomCall) (self : Peaks) : list Peaks :=
  match cs with
  | [] => []
  | c :: cs' =>
      let self' := stateOf (zoomCall c self) in
      self' :: zoomHistory cs' self'
  end.

(** [n] calls in a row. *)
Fixpoint times (n : nat) (m : M Peaks unit) : M Peaks unit :=
  match n with
  | O => ret tt
  | S n' => m ;; times n' m
  end.

(** The value [getZoom()] returns on an instance. *)
Definition zoomOf (self : Peaks) : Z := currentZoomLevel self.

(** The index is in range: what the data model asks of an instance. *)
Definition inRange (self : Peaks) : Prop :=
  0 <= zoomOf self < zoomLevelsLength self.

(** The spec's words for the transition: the index brought into [[lo, hi]]. *)
Definition clamp (lo hi x : Z) : Z := Z.max lo (Z.min x hi).

(** The [zoom.update] events of a trace. *)
Definition isZoomUpdate (e : Effect) : bool :=
  match e with
  | Emit topic _ => String.eqb topic "zoom.update"
  | _ => false
  end.

Definition zoomUpdates (t : list Effect) : list Effect := filter isZoomUpdate t.

End Zoom.

(** ** What the facade needs from the stored sequences *)

Module Store.

(** Modelled from the spec: the collaborator's own [remove]
    ([self.waveform.segments.remove], [self.waveform.points.remove]; module
    [peaks/waveform/waveform.core], whose code is not in [main.js]) "locates
    the record by identity (reference equality ...) within the ordered
    sequence"; the facade reads its result as the index of the record, or
    [null] (here [None]) when the record is not found. *)
Fixpoint locate (record : JsValue) (stored : list ref) : option nat :=
  match stored with
  | [] => None
  | r :: stored' =>
      if strictEquals (VObject r) record then Some O
      else option_map S (locate record stored')
  end.

(** [array.splice(index, 1)]: the removed elements and what is left. *)
Definition splice1 (index : nat) (l : list ref) : list ref * list ref :=
  (firstn 1 (skipn index l), firstn index l ++ skipn (S index) l).

(** [array.pop()] on the result of [splice]: its last element. *)
Definition pop (l : list ref) : JsValue :=
  match rev l with
  | [] => VUndefined
  | r :: _ => VObject r
  end.

(** The sequence without the first occurrence of [r]. *)
Fixpoint removeFirst (r : ref) (l : list ref) : list ref :=
  match l with
  | [] => []
  | x :: l' => if Nat.eqb x r then l' else x :: removeFirst r l'
  end.

End Store.

Import Store.

(** [f(...args)]: applying a value that is not a function throws. *)
Definition call (f : JsValue) (args : list JsValue) : M Peaks unit :=
  (h <- gets heap ;;
   if String.eqb (typeof h f) "function" then perform (Called f args)
   else throw (mkError KTypeError "is not a function" f))%js.

(** An object literal: a fresh object on the instance's heap. *)
Definition new (o : JsObject) : M Peaks ref :=
  fun self =>
    let '(r, h) := alloc o (heap self) in
    Return r (withHeap h self).

(** The shape the two [remove] functions of the facade share: [stored] and
    [withStored] read and write the sequence, [redraw] is the call made
    before the splice, [notFound] the text of the error. *)
Definition removeFrom (stored : Peaks -> list ref) (withStored : list ref -> Peaks -> Peaks)
    (redraw : Effect) (notFound : string) (record : JsValue) : M Peaks JsValue :=
  (index <- gets (fun self => locate record (stored self)) ;;
   match index with
   | None => throw (mkError KRangeError notFound record)
   | Some index =>
       perform redraw ;;
       l <- gets stored ;;
       let '(removed, rest) := splice1 index l in
       modify (withStored rest) ;;
       ret (pop removed)
   end)%js.

(** ** Creation by the collaborators *)

Module Collaborator.

(** What one call of [createSegment] or [createPoint] leaves behind. The
    two functions belong to [peaks/waveform/...], whose code is not in
    [main.js]: the facade is stated for any of them. A creation may
    allocate objects, change the stored sequence of its kind, and throw;
    the objects that are on the heap already, the batch among them, it
    leaves as they are. *)
Record Creation : Type := mkCreation {
  allocated : list JsObject;
  storedAfter : list ref;
  thrown : option JsError
}.

(** The collaborator's function: from the record passed, the heap and the
    stored sequence to what the call leaves. *)
Definition Creator : Type := JsValue -> Heap -> list ref -> Creation.

(** The creations of a batch in order, up to the first that throws. *)
Record Run : Type := mkRun {
  attempted : list JsValue;      (* the records creation was called on *)
  heapAfter : Heap;
  sequenceAfter : list ref;
  failure : option JsError       (* what the last call threw, if it threw *)
}.

Fixpoint createAll (create : Creator) (records : list JsValue) (h : Heap)
    (stored : list ref) : Run :=
  match records with
  | [] => mkRun [] h stored None
  | record :: records' =>
      let c := create record h stored in
      match thrown c with
      | Some e => mkRun [record] (h ++ allocated c) (storedAfter c) (Some e)
      | None =>
          let run := createAll create records' (h ++ allocated c) (storedAfter c) in
          mkRun (record :: attempted run) (heapAfter run) (sequenceAfter run) (failure run)
      end
  end.



End Collaborator.

Import Collaborator.

(** ** Segments API (main.js, lines 296-396) *)

Module Segments.

Local Open Scope js_scope.

(** [self.waveform.segments.createSegment], bound and passed to [forEach]:
    the call is recorded, then the collaborator does its part. *)
Definition createSegment (create : Creator) (options : JsValue) : M Peaks unit :=
  perform (CreateSegment options) ;;
  (fun self =>
     let c := create options (heap self) (segments self) in
     let self' := withSegments (storedAfter c) (withHeap (heap self ++ allocated c) self) in
     match thrown c with
     | None => Return tt self'
     | Some e => Throw e self'
     end).

Definition notice : string :=
  "[Peaks.segments.addSegment] Passing spread-arguments to addSegment is deprecated, please pass a single object".

Definition addSegment (create : Creator) (arguments : list JsValue) : M Peaks unit :=
  h <- gets heap ;;
  let segments :=
    if isArray h (arg arguments 0) then arrayElems h (arg arguments 0)
    else arguments in
  segments <-
    (if String.eqb (typeof h (arg segments 0)) "number" then
       deprecationLogger <- gets deprecationLogger ;;
       call deprecationLogger [VString notice] ;;
       r <- new (mkObject ClsObject
                   [("startTime", arg arguments 0);
                    ("endTime", arg arguments 1);
                    ("editable", arg arguments 2);
                    ("color", arg arguments 3);
                    ("labelText", arg arguments 4)] []) ;;
       ret [VObject r]
     else ret segments) ;;
  forEach (createSegment create) segments ;;
  perform RenderSegments.

Definition add := addSegment.

(** [self.waveform.segments.remove(segment)] *)
Definition waveformSegmentsRemove (segment : JsValue) : M Peaks (option nat) :=
  gets (fun self => locate segment (segments self)).

Definition remove (segment : JsValue) : M Peaks JsValue :=
  index <- waveformSegmentsRemove segment ;;
  match index with
  | None =>
      throw (mkError KRangeError "Unable to find the requested segment" segment)
  | Some index =>
      perform UpdateSegments ;;
      stored <- gets segments ;;
      let '(removed, rest) := splice1 index stored in
      modify (withSegments rest) ;;
      ret (pop removed)
  end.

(** The filter callbacks of [removeById] and [removeByTime]. *)
Definition hasId (h : Heap) (segmentId : JsValue) (segment : ref) : bool :=
  strictEquals (get h (VObject segment) "id") segmentId.

Definition fnFilter (h : Heap) (startTime endTime : JsValue) (segment : ref) : bool :=
  let endTime := if String.eqb (typeof h endTime) "number" then endTime else VNumber zero in
  if greaterThanZero endTime then
    strictEquals (get h (VObject segment) "startTime") startTime
    && strictEquals (get h (VObject segment) "endTime") endTime
  else
    strictEquals (get h (VObject segment) "startTime") startTime.

Definition removeById (segmentId : JsValue) : M Peaks unit :=
  h <- gets heap ;;
  stored <- gets segments ;;
  forEach (fun segment => remove (VObject segment)) (filter (hasId h segmentId) stored).

Definition removeByTime (startTime endTime : JsValue) : M Peaks nat :=
  h <- gets heap ;;
  stored <- gets segments ;;
  let matchingSegments := filter (fnFilter h startTime endTime) stored in
  forEach (fun segment => remove (VObject segment)) matchingSegments ;;
  ret (List.length matchingSegments).

Definition getSegments : M Peaks (list ref) := gets segments.

End Segments.

(** ** Points API (main.js, lines 402-499) *)

Module Points.

Local Open Scope js_scope.

(** [self.waveform.points.createPoint], bound and passed to [forEach]:
    the call is recorded, then the collaborator does its part. *)
Definition createPoint (create : Creator) (options : JsValue) : M Peaks unit :=
  perform (CreatePoint options) ;;
  (fun self =>
     let c := create options (heap self) (points self) in
     let self' := withPoints (storedAfter c) (withHeap (heap self ++ allocated c) self) in
     match thrown c with
     | None => Return tt self'
     | Some e => Throw e self'
     end).

Definition notice : string :=
  "[Peaks.points.add] Passing spread-arguments to `add` is deprecated, please pass a single object".

Definition add (create : Creator) (arguments : list JsValue) : M Peaks unit :=
  h <- gets heap ;;
  let points :=
    if isArray h (arg arguments 0) then arrayElems h (arg arguments 0)
    else arguments in
  points <-
    (if String.eqb (typeof h (arg points 0)) "number" then
       deprecationLogger <- gets deprecationLogger ;;
       call deprecationLogger [VString notice] ;;
       r <- new (mkObject ClsObject
                   [("timestamp", arg arguments 0);
                    ("editable", arg arguments 1);
                    ("color", arg arguments 2);
                    ("labelText", arg arguments 3)] []) ;;
       ret [VObject r]
     else ret points) ;;
  forEach (createPoint create) points ;;
  perform RenderPoints.

(** [self.waveform.points.remove(point)] *)
Definition waveformPointsRemove (point : JsValue) : M Peaks (option nat) :=
  gets (fun self => locate point (points self)).

Definition remove (point : JsValue) : M Peaks JsValue :=
  index <- waveformPointsRemove point ;;
  match index with
  | None =>
      throw (mkError KRangeError "Unable to find the requested point" point)
  | Some index =>
      perform RenderPoints ;;
      stored <- gets points ;;
      let '(removed, rest) := splice1 index stored in
      modify (withPoints rest) ;;
      ret (pop removed)
  end.

Definition getPoints : M Peaks (list ref) := gets points.

Definition atTime (h : Heap) (timestamp : JsValue) (point : ref) : bool :=
  strictEquals (get h (VObject point) "timestamp") timestamp.

Definition hasId (h : Heap) (pointId : JsValue) (point : ref) : bool :=
  strictEquals (get h (VObject point) "id") pointId.

Definition removeByTime (timestamp : JsValue) : M Peaks nat :=
  h <- gets heap ;;
  stored <- gets points ;;
  let matchingPoints := filter (atTime h timestamp) stored in
  forEach (fun point => remove (VObject point)) matchingPoints ;;
  ret (List.length matchingPoints).

Definition removeById (pointId : JsValue) : M Peaks unit :=
  h <- gets heap ;;
  stored <- gets points ;;
  forEach (fun point => remove (VObject point)) (filter (hasId h pointId) stored).

End Points.

(** ** Start-up (main.js, lines 28-292) *)

Module Init.

Local Open Scope js_scope.

(** Before an instance exists there is only the heap the caller's options
    live on, and what has been done to the outside so far. *)
Record World : Type := mkWorld {
  wheap : Heap;
  weffects : list Effect
}.

Definition newObject (o : JsObject) : M World ref :=
  fun w =>
    let '(r, h) := alloc o (wheap w) in
    Return r (mkWorld h (weffects w)).

(** [target.k = v]; the module is in strict mode, where creating a property
    on a primitive throws. A function of the host takes the property; the
    model keeps no properties for it, and the facade never reads such a
    property back. *)
Definition assign (target : JsValue) (k : string) (v : JsValue) : M World unit :=
  match target with
  | VObject r => modify (fun w => mkWorld (set r k v (wheap w)) (weffects w))
  | VNative _ => ret tt
  | _ => throw (mkError KTypeError "Cannot create property" target)
  end.

Definition apply (f : JsValue) (args : list JsValue) : M World unit :=
  h <- gets wheap ;;
  if String.eqb (typeof h f) "function" then
    modify (fun w => mkWorld (wheap w) (weffects w ++ [Called f args]))
  else throw (mkError KTypeError "is not a function" f).

(** [for (var key in from)] reaches the key. *)
Definition hasKey (h : Heap) (v : JsValue) (k : string) : bool :=
  match v with
  | VObject r =>
      match assoc k (props (deref h r)) with
      | Some _ => true
      | None => false
      end
  | _ => false
  end.

(** Defaults set by the constructor [Peaks(container)]. *)
Definition defaultZoomLevels : list JsValue :=
  map (fun z => VNumber (num z)) [512; 1024; 2048; 4096]%Z.

(** The one-character string that holds a double quote (character 34). *)
Definition doubleQuote : string :=
  String (Ascii.Ascii false true false false false true false false) EmptyString.

(** [text] between double quotes. *)
Definition quoted (text : string) : string :=
  String.append doubleQuote (String.append text doubleQuote).

(** The default markup: the four pieces of lines 141-144, joined. *)
Definition defaultTemplate : JsValue :=
  VString
    (String.concat ""
       [String.append "<div class=" (String.append (quoted "waveform") ">");
        String.append "<div class=" (String.append (quoted "zoom-container") "></div>");
        String.append "<div class=" (String.append (quoted "overview-container") "></div>");
        "</div>"]).

Definition consoleLog : JsValue := VNative "console.log".
Definition consoleError : JsValue := VNative "console.error".

(** [container.appendChild(child)]: on an element it is the method of the
    DOM, recorded as a call; on anything else the property is read and
    applied. *)
Definition appendChild (container child : JsValue) : M World unit :=
  h <- gets wheap ;;
  if instanceofHTMLElement h container then
    modify (fun w =>
              mkWorld (wheap w)
                (weffects w ++ [Called (VNative "appendChild") [container; child]]))
  else apply (get h container "appendChild") [child].

(** The part of [Peaks.init] after its checks, up to the layout (lines
    229-259): [new Peaks(opts.container)], [extend(instance.options, opts)],
    by which every key of [opts] overwrites a default, logger and layout.
    [zoomLevels] is an array by its documentation. What follows the layout
    (lines 261-289: the keyboard binder, the player, the waveform views
    built on [buildUi(container)], the listener) is the work of
    collaborators whose code is not in [main.js]: it is left out here, the
    overview scale and the stored sequences are theirs to fill in, and
    the properties of this file rest on [construct] only for what happens
    up to the layout. *)
Definition construct (opts : JsValue) : M World Peaks :=
  h <- gets wheap ;;
  let zoomLevels :=
    if hasKey h opts "zoomLevels" then arrayElems h (get h opts "zoomLevels")
    else defaultZoomLevels in
  let template :=
    if hasKey h opts "template" then get h opts "template" else defaultTemplate in
  let logger :=
    if truthy (get h opts "logger") then get h opts "logger" else consoleError in
  (if String.eqb (typeof h template) "string" then
     assign (get h opts "container") "innerHTML" template
   else if instanceofHTMLElement h template then
     appendChild (get h opts "container") template
   else
     throw (mkError KTypeError
              "Please ensure you provide an HTML string or a DOM template as `template` instance option. Provided: "
              template)) ;;
  w <- gets (fun w => w) ;;
  ret (mkPeaks (wheap w) zoomLevels (get h opts "deprecationLogger") logger
         (get h opts "container") 0%Z VUndefined [] [] (weffects w)).

(** Lines 201-207: default options object, default deprecation logger, and
    the deprecated [audioElement] option. Returns the options object. *)
Definition prepare (opts : JsValue) : M World JsValue :=
  opts <- (if truthy opts then ret opts
           else r <- newObject emptyObject ;; ret (VObject r)) ;;
  h <- gets wheap ;;
  assign opts "deprecationLogger"
    (if truthy (get h opts "deprecationLogger") then get h opts "deprecationLogger"
     else consoleLog) ;;
  h <- gets wheap ;;
  (if truthy (get h opts "audioElement") then
     assign opts "mediaElement" (get h opts "audioElement") ;;
     h <- gets wheap ;;
     apply (get h opts "deprecationLogger")
       [VString "[Peaks.init] `audioElement` option is deprecated. Please use `mediaElement` instead."]
   else ret tt) ;;
  ret opts.

(** Lines 209-229: the checks, then the construction. *)
Definition checks (opts : JsValue) : M World Peaks :=
  h <- gets wheap ;;
  if negb (truthy (get h opts "mediaElement")) then
    throw (mkError KError "[Peaks.init] Please provide an audio element." VUndefined)
  else if negb (instanceofHTMLMediaElement h (get h opts "mediaElement")) then
    throw (mkError KTypeError
             "[Peaks.init] The mediaElement option should be an HTMLMediaElement." VUndefined)
  else if negb (truthy (get h opts "container")) then
    throw (mkError KError "[Peaks.init] Please provide a container object." VUndefined)
  else if negb (greaterThanZero (get h (get h opts "container") "clientWidth")) then
    throw (mkError KTypeError
             "[Peaks.init] Please ensure that the container has a width." VUndefined)
  else if truthy (get h opts "logger")
          && negb (String.eqb (typeof h (get h opts "logger")) "function") then
    throw (mkError KTypeError
             "[Peaks.init] The `logger` option should be a function." VUndefined)
  else construct opts.

Definition init (opts : JsValue) : M World Peaks :=
  opts <- prepare opts ;;
  checks opts.

(** The media element the checks see: the deprecated [audioElement] option,
    when given, stands in for [mediaElement]. *)
Definition mediaElementOf (h : Heap) (opts : JsValue) : JsValue :=
  if truthy (get h opts "audioElement") then get h opts "audioElement"
  else get h opts "mediaElement".

(** What the checks read is the same on both heaps, but for the media
    element, which is the one the options resolve to. *)
Definition sameView (h h' : Heap) (r : ref) : Prop :=
  (forall x, cls (deref h' x) = cls (deref h x))
  /\ (forall x k, k <> "deprecationLogger" -> k <> "mediaElement" ->
        getProp (deref h' x) k = getProp (deref h x) k)
  /\ getProp (deref h' r) "mediaElement" = mediaElementOf h (VObject r).

(** No instance: the call ended by a throw. *)
Definition failed {S A} (o : Outcome S A) : Prop :=
  exists e s, o = Throw e s.

End Init.

(** ** A sample instance *)

Module Sample.

(** Heap: 0 the media element, 1 the container (1000 pixels wide), 2 the
    options passed to [Peaks.init]. *)
Definition mediaElement : JsObject := mkObject ClsHTMLMediaElement [] [].
Definition containerElement : JsObject :=
  mkObject ClsHTMLElement [("clientWidth", VNumber (num 1000))] [].
Definition options : JsObject :=
  mkObject ClsObject [("mediaElement", VObject 0); ("container", VObject 1)] [].

Definition world : Init.World :=
  Init.mkWorld [mediaElement; containerElement; options] [].

(** The instance with the default zoom levels. *)
Definition peaks : Peaks :=
  mkPeaks [mediaElement; containerElement; options] Init.defaultZoomLevels
    Init.consoleLog Init.consoleError (VObject 1) 0 VUndefined [] [] [].

(** Stored records: segments at 3, 4, 5 and points at 6, 7. *)
Definition segment (id startTime endTime : Z) : JsObject :=
  mkObject ClsObject
    [("id", VNumber (num id)); ("startTime", VNumber (num startTime));
     ("endTime", VNumber (num endTime))] [].

Definition point (id timestamp : Z) : JsObject :=
  mkObject ClsObject [("id", VNumber (num id)); ("timestamp", VNumber (num timestamp))] [].

Definition annotatedHeap : Heap :=
  [mediaElement; containerElement; options;
   segment 1 10 20; segment 2 10 30; segment 3 15 20;
   point 1 5; point 2 7].

Definition annotated : Peaks :=
  mkPeaks annotatedHeap Init.defaultZoomLevels Init.consoleLog Init.consoleError
    (VObject 1) 0 VUndefined [3; 4; 5]%nat [6; 7]%nat [].




(** The instance with a segment at address 8 that ends before it starts. *)
Definition withReversed : Peaks := withHeap (annotatedHeap ++ [segment 4 30 20]) annotated.

(** A collaborator that takes every record and keeps nothing. *)
Definition accepting : Creator := fun _ _ stored => mkCreation [] stored None.

(** The error of a rejected segment. *)
Definition invalidRange (record : JsValue) : JsError :=
  mkError KError "InvalidRange" record.

(** Modelled from the spec: [create] "constructs a record from the
    caller-supplied fields ... and appends it to the ordered sequence. For
    segments, if startTime >= endTime the call fails with an InvalidRange
    error". The code of [createSegment] is not in [main.js]. *)
Definition validating : Creator :=
  fun record h stored =>
    match get h record "startTime", get h record "endTime" with
    | VNumber startTime, VNumber endTime =>
        if SFltb startTime endTime then
          mkCreation
            [mkObject ClsObject
               [("startTime", VNumber startTime); ("endTime", VNumber endTime)] []]
            (stored ++ [List.length h]) None
        else mkCreation [] stored (Some (invalidRange record))
    | _, _ => mkCreation [] stored (Some (invalidRange record))
    end.

End Sample.

(** ** Sequences of zoom calls *)

Module ZoomRuns.

Import Zoom.

(** Any call of the zoom API that emits. *)
Inductive ZoomAction : Type :=
| Move (c : ZoomCall)
| Overview
| Reset.

Definition zoomAction (a : ZoomAction) : M Peaks unit :=
  match a with
  | Move c => zoomCall c
  | Overview => zoomToOverview
  | Reset => resetOverview
  end.

(** The two scale factors a ["zoom.update"] event carries. *)
Definition newScale (e : Effect) : JsValue :=
  match e with
  | Emit _ args => arg args 0
  | _ => VUndefined
  end.

Definition previousScale (e : Effect) : JsValue :=
  match e with
  | Emit _ args => arg args 1
  | _ => VUndefined
  end.

(** Each event starts from the scale the one before it ended on. *)
Fixpoint chained (previous : JsValue) (events : list Effect) : Prop :=
  match events with
  | [] => True
  | e :: events' => previousScale e = previous /\ chained (newScale e) events'
  end.

(** Two instances that differ at most in the zoom index and the trace. *)
Definition sameButZoom (a b : Peaks) : Prop :=
  heap a = heap b /\ zoomLevels a = zoomLevels b
  /\ deprecationLogger a = deprecationLogger b /\ logger a = logger b
  /\ container a = container b /\ overviewScale a = overviewScale b
  /\ segments a = segments b /\ points a = points b.

End ZoomRuns.

(** ** Options (main.js, lines 18-24, 28-198 and 229-237) *)

Module Options.

Import Init.
Local Open Scope js_scope.

(** The keys [for (var key in from)] visits on a plain object: its own
    named keys, in insertion order. The indices of an array and the keys an
    object inherits are not among [props]; [plain] below says for which
    objects the list is the one the loop visits. *)
Definition keys (h : Heap) (from : ref) : list string :=
  map fst (props (deref h from)).

(** An object as an object literal makes it: of class [Object], which
    inherits nothing that [for ... in] visits, with no indexed elements,
    and with no own key ["__proto__"], at which an assignment sets the
    prototype and not a property. *)
Definition plain (h : Heap) (r : ref) : bool :=
  match cls (deref h r), elems (deref h r) with
  | ClsObject, [] => negb (existsb (String.eqb "__proto__") (keys h r))
  | _, _ => false
  end.

(** [extend(to, from)]; both call sites pass objects. The loop is the one
    of the source when [from] is [plain]. *)
Definition extend (to from : ref) : M World JsValue :=
  h <- gets wheap ;;
  forEach
    (fun key =>
       h <- gets wheap ;;
       assign (VObject to) key (get h (VObject from) key))
    (keys h from) ;;
  ret (VObject to).







(** The heap the loop of [extend] leaves, key by key. *)
Fixpoint copyKeys (to from : ref) (ks : list string) (h : Heap) : Heap :=
  match ks with
  | [] => h
  | k :: ks' => copyKeys to from ks' (set to k (get h (VObject from) k) h)
  end.


End Options.

(** ** The parts of start-up *)

Module InitParts.

Import Init.

(** The notice for the deprecated [audioElement] option. *)
Definition audioNotice : JsValue :=
  VString "[Peaks.init] `audioElement` option is deprecated. Please use `mediaElement` instead.".

(** [opts.deprecationLogger || console.log.bind(console)] *)
Definition loggerOf (h : Heap) (opts : JsValue) : JsValue :=
  if truthy (get h opts "deprecationLogger") then get h opts "deprecationLogger"
  else consoleLog.

(** The heap after lines 201-207 have written to the options at [r]. *)
Definition prepared (h : Heap) (r : ref) : Heap :=
  let h1 := set r "deprecationLogger" (loggerOf h (VObject r)) h in
  if truthy (get h (VObject r) "audioElement")
  then set r "mediaElement" (get h (VObject r) "audioElement") h1
  else h1.

(** The five errors of the checks, in the order of the checks, and the
    error of the layout. *)
Definition noMediaElement : JsError :=
  mkError KError "[Peaks.init] Please provide an audio element." VUndefined.
Definition notMediaElement : JsError :=
  mkError KTypeError "[Peaks.init] The mediaElement option should be an HTMLMediaElement."
    VUndefined.
Definition noContainer : JsError :=
  mkError KError "[Peaks.init] Please provide a container object." VUndefined.
Definition noWidth : JsError :=
  mkError KTypeError "[Peaks.init] Please ensure that the container has a width." VUndefined.
Definition badLogger : JsError :=
  mkError KTypeError "[Peaks.init] The `logger` option should be a function." VUndefined.


End InitParts.

(** ** The batch of an add call *)

Module Batch.

(** [segments] (for points, [points]) as the two [add] functions first
    compute it: the array passed first, or else the arguments. *)
Definition batch (h : Heap) (arguments : list JsValue) : list JsValue :=
  if isArray h (arg arguments 0) then arrayElems h (arg arguments 0) else arguments.

(** The instance after a run of creations: the heap and the stored
    sequence as the run left them, [events] added to the trace. *)
Definition segmentsAfter (run : Run) (events : list Effect) (self : Peaks) : Peaks :=
  withTrace (trace self ++ events)
    (withSegments (sequenceAfter run) (withHeap (heapAfter run) self)).

Definition pointsAfter (run : Run) (events : list Effect) (self : Peaks) : Peaks :=
  withTrace (trace self ++ events)
    (withPoints (sequenceAfter run) (withHeap (heapAfter run) self)).

End Batch.

(** ** The listener for "waveformOverviewReady" (main.js, lines 277-289) *)

Module Ready.

Local Open Scope js_scope.

(** [instance.waveform.openZoomView], a method of a collaborator *)
Definition openZoomView : JsValue := VNative "waveform.openZoomView".

(** [segments] and [points] are [instance.options.segments] and
    [instance.options.points]. *)
Definition waveformOverviewReady (createSegment createPoint : Creator)
    (segments points : JsValue) : M Peaks unit :=
  perform (Called openZoomView []) ;;
  (if truthy segments then Segments.add createSegment [segments] else ret tt) ;;
  (if truthy points then Points.add createPoint [points] else ret tt).

(** The records a batch option stands for: the elements of an array, or
    the value itself. *)
Definition batchOf (h : Heap) (v : JsValue) : list JsValue :=
  if isArray h v then arrayElems h v else [v].

End Ready.

(** * Properties *)

(** ** Zoom state machine *)

Section ZoomFacts.

Import Zoom.
Local Open Scope Z_scope.

Lemma clamp_code (len i : Z) :
  (let i' := if i >=? len then len - 1 else i in if i' <? 0 then 0 else i')
  = clamp 0 (len - 1) i.
Proof.
  unfold clamp; cbv zeta.
  destruct (Z.geb_spec i len) as [Hge | Hlt].
  - destruct (Z.ltb_spec (len - 1) 0); lia.
  - destruct (Z.ltb_spec i 0); lia.
Qed.

Lemma clamp_in_range (len i : Z) :
  0 < len -> 0 <= clamp 0 (len - 1) i <= len - 1.
Proof. unfold clamp; lia. Qed.

Lemma zoomLevelsLength_pos (self : Peaks) :
  zoomLevels self <> [] -> 0 < zoomLevelsLength self.
Proof.
  unfold zoomLevelsLength; destruct (zoomLevels self); [congruence | cbn; lia].
Qed.

(** The whole effect of one [setZoom] call. *)
Lemma setZoom_run (zoomLevelIndex : Z) (self : Peaks) :
  setZoom zoomLevelIndex self =
  let clamped := clamp 0 (zoomLevelsLength self - 1) zoomLevelIndex in
  Return tt
    (withTrace
       (trace self ++
        [Emit "zoom.update"
           [index (zoomLevels self) clamped;
            index (zoomLevels self) (currentZoomLevel self)]])
       (withCurrentZoomLevel clamped self)).
Proof.
  unfold setZoom, bind, gets, modify, emit, perform; cbn.
  rewrite <- (clamp_code (zoomLevelsLength self) zoomLevelIndex).
  reflexivity.
Qed.

Lemma zoomIn_run (self : Peaks) :
  zoomIn self = setZoom (currentZoomLevel self - 1) self.
Proof. reflexivity. Qed.

Lemma zoomOut_run (self : Peaks) :
  zoomOut self = setZoom (currentZoomLevel self + 1) self.
Proof. reflexivity. Qed.

Lemma zoomCall_run (c : ZoomCall) (self : Peaks) :
  exists i,
    zoomCall c self =
    Return tt
      (withTrace
         (trace self ++
          [Emit "zoom.update"
             [index (zoomLevels self) (clamp 0 (zoomLevelsLength self - 1) i);
              index (zoomLevels self) (currentZoomLevel self)]])
         (withCurrentZoomLevel (clamp 0 (zoomLevelsLength self - 1) i) self)).
Proof.
  destruct c as [i | | ]; cbn [zoomCall].
  - exists i; apply setZoom_run.
  - exists (currentZoomLevel self - 1); rewrite zoomIn_run; apply setZoom_run.
  - exists (currentZoomLevel self + 1); rewrite zoomOut_run; apply setZoom_run.
Qed.

Lemma zoomCall_inRange (c : ZoomCall) (self : Peaks) :
  zoomLevels self <> [] ->
  zoomLevels (stateOf (zoomCall c self)) = zoomLevels self
  /\ inRange (stateOf (zoomCall c self)).
Proof.
  intros Hne. destruct (zoomCall_run c self) as [i ->]. cbn.
  split; [reflexivity |].
  unfold inRange, zoomOf, zoomLevelsLength; cbn.
  pose proof (clamp_in_range (zoomLevelsLength self) i (zoomLevelsLength_pos self Hne)) as H.
  unfold zoomLevelsLength in H. lia.
Qed.

Lemma zoomHistory_inRange (cs : list ZoomCall) :
  forall self, zoomLevels self <> [] -> Forall inRange (zoomHistory cs self).
Proof.
  induction cs as [| c cs IH]; intros self Hne; cbn [zoomHistory].
  - constructor.
  - destruct (zoomCall_inRange c self Hne) as [Hz Hr].
    constructor; [exact Hr |].
    apply IH. rewrite Hz. exact Hne.
Qed.

(** C1. On an instance with a non-empty [zoomLevels], after each call of any
    sequence of [setZoom] (any integer), [zoomIn] and [zoomOut] calls the
    index satisfies [0 <= currentZoomLevel < len(zoomLevels)]; none of the
    calls throws; and [setZoom] with an index below 0 leaves [getZoom()] at
    0, with an index above [len-1] at [len-1]. *)
Theorem zoom_index_in_range (cs : list ZoomCall) (self : Peaks) :
  zoomLevels self <> [] ->
  Forall inRange (zoomHistory cs self)
  /\ (forall c s, zoomCall c s = Return tt (stateOf (zoomCall c s)))
  /\ (forall i, i < 0 -> zoomOf (stateOf (setZoom i self)) = 0)
  /\ (forall i, i > zoomLevelsLength self - 1 ->
        zoomOf (stateOf (setZoom i self)) = zoomLevelsLength self - 1).
Proof.
  intros Hne. pose proof (zoomLevelsLength_pos self Hne) as Hpos.
  split; [apply zoomHistory_inRange; exact Hne |].
  split.
  { intros c s. destruct (zoomCall_run c s) as [i ->]. reflexivity. }
  split; intros i Hi; rewrite setZoom_run; cbn; unfold zoomOf, clamp; cbn; lia.
Qed.

(** C1 on the sample instance: index 7 is brought to 3, zooming in gives 2,
    index -5 gives 0, zooming in again stays at 0, zooming out gives 1. *)
Lemma zoom_index_in_range_witness :
  Sample.peaks.(zoomLevels) <> []
  /\ map zoomOf
       (zoomHistory [CallSetZoom 7; CallZoomIn; CallSetZoom (-5); CallZoomIn; CallZoomOut]
          Sample.peaks) = [3; 2; 0; 0; 1]
  /\ Forall inRange
       (zoomHistory [CallSetZoom 7; CallZoomIn; CallSetZoom (-5); CallZoomIn; CallZoomOut]
          Sample.peaks).
Proof.
  split; [discriminate |].
  split; [reflexivity |].
  apply (zoom_index_in_range
           [CallSetZoom 7; CallZoomIn; CallSetZoom (-5); CallZoomIn; CallZoomOut]
           Sample.peaks).
  discriminate.
Defined.

(** C2. Every [setZoom(index)] call returns normally with the index clamped
    (brought into [[0, len-1]], which it lies in whenever [zoomLevels] is not
    empty), [currentZoomLevel] set to the clamped index and nothing else of
    the instance changed, and exactly one event added to what was emitted:
    ["zoom.update"] carrying [zoomLevels[clamped]] and then
    [zoomLevels[previous index]]. *)
Theorem setZoom_clamps_and_emits (zoomLevelIndex : Z) (self : Peaks) :
  let len := zoomLevelsLength self in
  let previous := currentZoomLevel self in
  let clamped := clamp 0 (len - 1) zoomLevelIndex in
  let newScaleFactor := index (zoomLevels self) clamped in
  let previousScaleFactor := index (zoomLevels self) previous in
  setZoom zoomLevelIndex self =
    Return tt
      (mkPeaks (heap self) (zoomLevels self) (deprecationLogger self) (logger self)
         (container self) clamped (overviewScale self) (segments self) (points self)
         (trace self ++ [Emit "zoom.update" [newScaleFactor; previousScaleFactor]]))
  /\ getZoom (stateOf (setZoom zoomLevelIndex self))
     = Return clamped (stateOf (setZoom zoomLevelIndex self))
  /\ zoomUpdates (trace (stateOf (setZoom zoomLevelIndex self)))
     = zoomUpdates (trace self)
       ++ [Emit "zoom.update" [newScaleFactor; previousScaleFactor]]
  /\ (0 <= zoomLevelIndex <= len - 1 -> clamped = zoomLevelIndex)
  /\ (zoomLevels self <> [] -> 0 <= clamped <= len - 1).
Proof.
  cbv zeta. rewrite setZoom_run. cbn.
  split; [reflexivity |].
  split; [reflexivity |].
  split.
  { unfold zoomUpdates. rewrite filter_app. reflexivity. }
  split.
  - unfold clamp; lia.
  - intros Hne. apply clamp_in_range, zoomLevelsLength_pos, Hne.
Qed.

(** C2 on the sample instance: [setZoom(9)] goes from level 0 to level 3 and
    emits the scale factors 4096 and 512. *)
Lemma setZoom_clamps_and_emits_witness :
  setZoom 9 Sample.peaks =
    Return tt
      (withTrace [Emit "zoom.update" [VNumber (num 4096); VNumber (num 512)]]
         (withCurrentZoomLevel 3 Sample.peaks))
  /\ 0 <= clamp 0 (zoomLevelsLength Sample.peaks - 1) 9
       <= zoomLevelsLength Sample.peaks - 1.
Proof.
  pose proof (setZoom_clamps_and_emits 9 Sample.peaks) as H.
  cbv zeta in H. destruct H as (Hrun & _ & _ & _ & Hrange).
  split.
  - rewrite Hrun. reflexivity.
  - apply Hrange. discriminate.
Defined.

Lemma times_S (n : nat) (m : M Peaks unit) (self : Peaks) :
  times (S n) m self =
  match m self with
  | Return _ s => times n m s
  | Throw e s => Throw e s
  end.
Proof. reflexivity. Qed.

(** [n] times [zoomIn] from an index in range: [n] levels down, but not below 0. *)
Lemma times_zoomIn (n : nat) :
  forall self, inRange self ->
    exists t,
      times n zoomIn self =
      Return tt
        (withTrace t (withCurrentZoomLevel (Z.max 0 (currentZoomLevel self - Z.of_nat n)) self)).
Proof.
  induction n as [| n IH]; intros self Hr; unfold inRange, zoomOf in Hr.
  - exists (trace self). cbn [times]. unfold ret.
    replace (Z.max 0 (currentZoomLevel self - Z.of_nat 0)) with (currentZoomLevel self) by lia.
    destruct self; reflexivity.
  - rewrite times_S, zoomIn_run, setZoom_run. cbv beta iota zeta.
    match goal with |- context [times n zoomIn ?s] => destruct (IH s) as [t Ht] end.
    { unfold inRange, zoomOf, zoomLevelsLength in *; cbn. unfold clamp. lia. }
    exists t. rewrite Ht. cbn. unfold withTrace, withCurrentZoomLevel; cbn.
    f_equal. f_equal. unfold clamp. lia.
Qed.

(** C7. [zoomIn()] is [setZoom(currentZoomLevel - 1)] and [zoomOut()] is
    [setZoom(currentZoomLevel + 1)]; from any index in range,
    [len(zoomLevels)] calls of [zoomIn()] end with [getZoom()] at 0, and so
    does any larger number of calls. *)
Theorem zoomIn_zoomOut_sugar :
  (forall self, zoomIn self = setZoom (currentZoomLevel self - 1) self)
  /\ (forall self, zoomOut self = setZoom (currentZoomLevel self + 1) self)
  /\ (forall self, inRange self ->
      forall more : nat,
        exists self',
          times (List.length (zoomLevels self) + more) zoomIn self = Return tt self'
          /\ getZoom self' = Return 0 self').
Proof.
  split; [exact zoomIn_run |].
  split; [exact zoomOut_run |].
  intros self Hr more.
  destruct (times_zoomIn (List.length (zoomLevels self) + more) self Hr) as [t Ht].
  eexists. split; [exact Ht |].
  unfold getZoom, gets; cbn. f_equal.
  unfold inRange, zoomOf, zoomLevelsLength in Hr. lia.
Qed.

(** C7 on the sample instance moved to level 3: four calls of [zoomIn()]
    reach level 0, and so do six. *)
Lemma zoomIn_zoomOut_sugar_witness :
  inRange (withCurrentZoomLevel 3 Sample.peaks)
  /\ (exists self',
        times (4 + 0) zoomIn (withCurrentZoomLevel 3 Sample.peaks) = Return tt self'
        /\ getZoom self' = Return 0 self')
  /\ (exists self',
        times (4 + 2) zoomIn (withCurrentZoomLevel 3 Sample.peaks) = Return tt self'
        /\ getZoom self' = Return 0 self').
Proof.
  assert (Hr : inRange (withCurrentZoomLevel 3 Sample.peaks))
    by (unfold inRange, zoomOf, zoomLevelsLength; cbn; lia).
  split; [exact Hr |].
  split.
  - exact (proj2 (proj2 zoomIn_zoomOut_sugar) _ Hr 0%nat).
  - exact (proj2 (proj2 zoomIn_zoomOut_sugar) _ Hr 2%nat).
Defined.

(** C8. [overview()] and [reset()] each return normally, add exactly one
    ["zoom.update"] event and change nothing else of the instance, so
    [getZoom()] is the same before and after. The event of [overview()]
    carries the overview scale of the waveform data as its new scale, that
    of [reset()] carries it as its previous scale; the other scale is
    [zoomLevels[currentZoomLevel]]. *)
Theorem overview_reset_pulse (self : Peaks) :
  let scale := overviewScale self in
  let current := index (zoomLevels self) (currentZoomLevel self) in
  zoomToOverview self
    = Return tt (withTrace (trace self ++ [Emit "zoom.update" [scale; current]]) self)
  /\ resetOverview self
     = Return tt (withTrace (trace self ++ [Emit "zoom.update" [current; scale]]) self)
  /\ getZoom (stateOf (zoomToOverview self))
     = Return (currentZoomLevel self) (stateOf (zoomToOverview self))
  /\ getZoom (stateOf (resetOverview self))
     = Return (currentZoomLevel self) (stateOf (resetOverview self)).
Proof. cbv zeta. repeat split. Qed.

(** C10. A [setZoom] call whose clamped index is the current index still
    emits exactly one ["zoom.update"] event, carrying the current scale
    factor twice, and leaves [currentZoomLevel] as it was; [zoomIn()] at
    index 0 and [zoomOut()] at index [len-1] are such calls. *)
Theorem setZoom_emits_at_same_level (self : Peaks) :
  let len := zoomLevelsLength self in
  let current := currentZoomLevel self in
  let scale := index (zoomLevels self) current in
  let pulsed := withTrace (trace self ++ [Emit "zoom.update" [scale; scale]]) self in
  (forall i, clamp 0 (len - 1) i = current -> setZoom i self = Return tt pulsed)
  /\ (current = 0 -> zoomIn self = Return tt pulsed)
  /\ (zoomLevels self <> [] -> current = len - 1 -> zoomOut self = Return tt pulsed)
  /\ currentZoomLevel pulsed = current
  /\ zoomUpdates (trace pulsed)
     = zoomUpdates (trace self) ++ [Emit "zoom.update" [scale; scale]].
Proof.
  cbv zeta.
  assert (Hsame : forall i,
             clamp 0 (zoomLevelsLength self - 1) i = currentZoomLevel self ->
             setZoom i self =
             Return tt
               (withTrace
                  (trace self ++
                   [Emit "zoom.update"
                      [index (zoomLevels self) (currentZoomLevel self);
                       index (zoomLevels self) (currentZoomLevel self)]]) self)).
  { intros i Hi. rewrite setZoom_run. cbv zeta. rewrite Hi.
    destruct self; reflexivity. }
  split; [exact Hsame |].
  split.
  { intros H0. rewrite zoomIn_run. apply Hsame. rewrite H0.
    unfold clamp, zoomLevelsLength. lia. }
  split.
  { intros Hne Hlast. rewrite zoomOut_run. apply Hsame.
    pose proof (zoomLevelsLength_pos self Hne). unfold clamp. lia. }
  split; [reflexivity |].
  cbn. unfold zoomUpdates. rewrite filter_app. reflexivity.
Qed.

(** C10 on the sample instance, which is at level 0: [zoomIn()] emits 512
    twice and stays at level 0. *)
Lemma setZoom_emits_at_same_level_witness :
  currentZoomLevel Sample.peaks = 0
  /\ zoomIn Sample.peaks
     = Return tt
         (withTrace [Emit "zoom.update" [VNumber (num 512); VNumber (num 512)]]
            Sample.peaks).
Proof.
  split; [reflexivity |].
  pose proof (setZoom_emits_at_same_level Sample.peaks) as H.
  cbv zeta in H. destruct H as (_ & Hin & _).
  rewrite Hin; reflexivity.
Defined.

End ZoomFacts.

(** ** Stored sequences *)

Section StoreFacts.

Lemma strictEquals_object (r : ref) (v : JsValue) :
  strictEquals (VObject r) v = true <-> v = VObject r.
Proof.
  destruct v; cbn; try (split; [discriminate | intros H; discriminate H]).
  rewrite Nat.eqb_eq. split; [intros -> | intros [= ->]]; reflexivity.
Qed.

Lemma locate_found (r : ref) (l : list ref) :
  In r l ->
  exists i, locate (VObject r) l = Some i /\ splice1 i l = ([r], removeFirst r l).
Proof.
  induction l as [| x l IH]; intros Hin; [destruct Hin |].
  cbn [locate removeFirst strictEquals].
  destruct (Nat.eqb_spec x r) as [-> | Hneq].
  - exists O. split; reflexivity.
  - destruct Hin as [Heq | Hin]; [congruence |].
    destruct (IH Hin) as (i & Hloc & Hsplice).
    exists (S i). rewrite Hloc. split; [reflexivity |].
    unfold splice1 in *. cbn [skipn firstn app].
    injection Hsplice as H1 H2. rewrite H1, H2. reflexivity.
Qed.

Lemma locate_missing (v : JsValue) (l : list ref) :
  (forall r, v = VObject r -> ~ In r l) <-> locate v l = None.
Proof.
  induction l as [| x l IH]; cbn [locate].
  - split; [reflexivity | intros _ r _ []].
  - destruct (strictEquals (VObject x) v) eqn:E.
    + apply strictEquals_object in E. split; [| discriminate].
      intros H. exfalso. apply (H x E). left; reflexivity.
    + split.
      * intros H. replace (locate v l) with (@None nat); [reflexivity |].
        symmetry. apply IH. intros r Hr Hin. apply (H r Hr). right; exact Hin.
      * intros H r Hr [Hx | Hin].
        { subst. rewrite (proj2 (strictEquals_object r (VObject r)) eq_refl) in E.
          discriminate. }
        { destruct (locate v l) eqn:El; [discriminate |].
          apply (proj2 IH eq_refl r Hr Hin). }
Qed.

Lemma removeFirst_app (r : ref) (pre l : list ref) :
  ~ In r pre -> removeFirst r (pre ++ r :: l) = pre ++ l.
Proof.
  induction pre as [| x pre IH]; intros Hnot; cbn [app removeFirst].
  - rewrite Nat.eqb_refl. reflexivity.
  - destruct (Nat.eqb_spec x r) as [-> | _].
    + exfalso. apply Hnot. left; reflexivity.
    + rewrite IH; [reflexivity |]. intros H. apply Hnot. right; exact H.
Qed.

Lemma filter_none (f : ref -> bool) (l : list ref) :
  (forall r, In r l -> f r = false) ->
  filter f l = [] /\ filter (fun r => negb (f r)) l = l.
Proof.
  induction l as [| x l IH]; intros H; [split; reflexivity |].
  cbn [filter]. rewrite (H x (or_introl eq_refl)). cbn [negb].
  destruct IH as [H1 H2]; [intros r Hr; apply H; right; exact Hr |].
  rewrite H1, H2. split; reflexivity.
Qed.

Variable stored : Peaks -> list ref.
Variable withStored : list ref -> Peaks -> Peaks.
Variable redraw : Effect.
Variable notFound : string.

Hypothesis stored_withStored : forall l p, stored (withStored l p) = l.
Hypothesis stored_withTrace : forall t p, stored (withTrace t p) = stored p.
Hypothesis trace_withStored : forall l p, trace (withStored l p) = trace p.
Hypothesis withStored_again :
  forall l t l' t' p,
    withStored l (withTrace t (withStored l' (withTrace t' p)))
    = withStored l (withTrace t p).
Hypothesis withStored_same :
  forall p, withStored (stored p) (withTrace (trace p) p) = p.

Let removeOne := removeFrom stored withStored redraw notFound.

Lemma removeFrom_found (r : ref) (self : Peaks) :
  In r (stored self) ->
  removeOne (VObject r) self =
  Return (VObject r)
    (withStored (removeFirst r (stored self)) (withTrace (trace self ++ [redraw]) self)).
Proof.
  intros Hin. destruct (locate_found r (stored self) Hin) as (i & Hloc & Hsplice).
  unfold removeOne, removeFrom, bind, gets, perform, modify, ret.
  rewrite Hloc. rewrite stored_withTrace, Hsplice. reflexivity.
Qed.

Lemma removeFrom_missing (v : JsValue) (self : Peaks) :
  (forall r, v = VObject r -> ~ In r (stored self)) ->
  removeOne v self = Throw (mkError KRangeError notFound v) self.
Proof.
  intros H. apply locate_missing in H.
  unfold removeOne, removeFrom, bind, gets, throw. rewrite H. reflexivity.
Qed.

(** Removing, one after the other, the records a filter selected leaves the
    records it did not select, in their order, after one redraw per record. *)
Lemma forEach_removeFrom (f : ref -> bool) (l : list ref) :
  forall pre self,
    stored self = pre ++ l ->
    (forall x, In x pre -> f x = false) ->
    forEach (fun r => removeOne (VObject r)) (filter f l) self =
    Return tt
      (withStored (pre ++ filter (fun x => negb (f x)) l)
         (withTrace (trace self ++ repeat redraw (List.length (filter f l))) self)).
Proof.
  induction l as [| x l IH]; intros pre self Hst Hpre.
  - cbn. unfold ret. rewrite !app_nil_r in *. rewrite <- Hst, withStored_same. reflexivity.
  - cbn [filter]. destruct (f x) eqn:Efx; cbn [negb].
    + cbn [forEach]. unfold bind at 1.
      rewrite removeFrom_found by (rewrite Hst; apply in_or_app; right; left; reflexivity).
      rewrite Hst, removeFirst_app
        by (intros Hin; apply Hpre in Hin; congruence).
      rewrite (IH pre) by (try apply stored_withStored; exact Hpre).
      rewrite withStored_again, trace_withStored. cbn [trace withTrace List.length repeat].
      rewrite <- app_assoc. reflexivity.
    + rewrite (IH (pre ++ [x]) self).
      * rewrite <- app_assoc. reflexivity.
      * rewrite Hst, <- app_assoc. reflexivity.
      * intros y Hy. apply in_app_or in Hy. destruct Hy as [Hy | [<- | []]];
          [apply Hpre; exact Hy | exact Efx].
Qed.

Lemma forEach_removeFrom_filter (f : ref -> bool) (self : Peaks) :
  forEach (fun r => removeOne (VObject r)) (filter f (stored self)) self =
  Return tt
    (withStored (filter (fun x => negb (f x)) (stored self))
       (withTrace (trace self ++ repeat redraw (List.length (filter f (stored self)))) self)).
Proof.
  apply (forEach_removeFrom f (stored self) [] self); [reflexivity | intros x []].
Qed.

End StoreFacts.

(** ** Removing annotations *)

Section RemoveFacts.

Lemma segments_laws :
  (forall l p, segments (withSegments l p) = l)
  /\ (forall t p, segments (withTrace t p) = segments p)
  /\ (forall l p, trace (withSegments l p) = trace p)
  /\ (forall l t l' t' p,
        withSegments l (withTrace t (withSegments l' (withTrace t' p)))
        = withSegments l (withTrace t p))
  /\ (forall p, withSegments (segments p) (withTrace (trace p) p) = p).
Proof. repeat split; intros; try reflexivity. destruct p; reflexivity. Qed.

Lemma points_laws :
  (forall l p, points (withPoints l p) = l)
  /\ (forall t p, points (withTrace t p) = points p)
  /\ (forall l p, trace (withPoints l p) = trace p)
  /\ (forall l t l' t' p,
        withPoints l (withTrace t (withPoints l' (withTrace t' p)))
        = withPoints l (withTrace t p))
  /\ (forall p, withPoints (points p) (withTrace (trace p) p) = p).
Proof. repeat split; intros; try reflexivity. destruct p; reflexivity. Qed.

Lemma segments_remove_shape (segment : JsValue) :
  Segments.remove segment
  = removeFrom segments withSegments UpdateSegments
      "Unable to find the requested segment" segment.
Proof. reflexivity. Qed.

Lemma points_remove_shape (point : JsValue) :
  Points.remove point
  = removeFrom points withPoints RenderPoints "Unable to find the requested point" point.
Proof. reflexivity. Qed.

Lemma segments_forEach_remove (f : ref -> bool) (self : Peaks) :
  forEach (fun r => Segments.remove (VObject r)) (filter f (segments self)) self =
  Return tt
    (withSegments (filter (fun x => negb (f x)) (segments self))
       (withTrace
          (trace self ++ repeat UpdateSegments (List.length (filter f (segments self))))
          self)).
Proof.
  destruct segments_laws as (L1 & L2 & L3 & L4 & L5).
  exact (forEach_removeFrom_filter segments withSegments UpdateSegments
           "Unable to find the requested segment" L1 L2 L3 L4 L5 f self).
Qed.

Lemma points_forEach_remove (f : ref -> bool) (self : Peaks) :
  forEach (fun r => Points.remove (VObject r)) (filter f (points self)) self =
  Return tt
    (withPoints (filter (fun x => negb (f x)) (points self))
       (withTrace
          (trace self ++ repeat RenderPoints (List.length (filter f (points self))))
          self)).
Proof.
  destruct points_laws as (L1 & L2 & L3 & L4 & L5).
  exact (forEach_removeFrom_filter points withPoints RenderPoints
           "Unable to find the requested point" L1 L2 L3 L4 L5 f self).
Qed.

Lemma in_split_first (r : ref) (l : list ref) :
  In r l ->
  exists before after,
    l = before ++ r :: after /\ ~ In r before /\ removeFirst r l = before ++ after.
Proof.
  induction l as [| x l IH]; intros Hin; [destruct Hin |].
  cbn [removeFirst]. destruct (Nat.eqb_spec x r) as [-> | Hneq].
  - exists [], l. repeat split. intros [].
  - destruct Hin as [Heq | Hin]; [congruence |].
    destruct (IH Hin) as (before & after & Hl & Hnot & Hrm).
    exists (x :: before), after. rewrite Hl at 1. rewrite Hrm.
    repeat split. intros [Hx | Hb]; [congruence | exact (Hnot Hb)].
Qed.

Lemma no_identical_record (record : JsValue) (l : list ref) :
  (forall r, In r l -> strictEquals (VObject r) record = false) ->
  forall r, record = VObject r -> ~ In r l.
Proof.
  intros H r -> Hin. specialize (H r Hin).
  rewrite (proj2 (strictEquals_object r (VObject r)) eq_refl) in H. discriminate.
Qed.

End RemoveFacts.

(** C4. [remove(record)] on segments and on points: when no stored record is
    identical to the argument the call throws a [RangeError] and leaves the
    instance, and with it the stored sequence, as it was; when a stored
    record is the argument, its first occurrence is taken out of the stored
    sequence, after one redraw call, and the record is returned. *)
Theorem remove_returns_record_or_throws (record : JsValue) (self : Peaks) :
  ((forall r, In r (segments self) -> strictEquals (VObject r) record = false) ->
     Segments.remove record self
     = Throw (mkError KRangeError "Unable to find the requested segment" record) self)
  /\ (forall r, record = VObject r -> In r (segments self) ->
        exists before after,
          segments self = before ++ r :: after /\ ~ In r before
          /\ Segments.remove record self
             = Return (VObject r)
                 (withSegments (before ++ after)
                    (withTrace (trace self ++ [UpdateSegments]) self)))
  /\ ((forall r, In r (points self) -> strictEquals (VObject r) record = false) ->
        Points.remove record self
        = Throw (mkError KRangeError "Unable to find the requested point" record) self)
  /\ (forall r, record = VObject r -> In r (points self) ->
        exists before after,
          points self = before ++ r :: after /\ ~ In r before
          /\ Points.remove record self
             = Return (VObject r)
                 (withPoints (before ++ after)
                    (withTrace (trace self ++ [RenderPoints]) self))).
Proof.
  destruct segments_laws as (S1 & S2 & S3 & S4 & S5).
  destruct points_laws as (P1 & P2 & P3 & P4 & P5).
  split; [| split; [| split]].
  - intros Hnone. rewrite segments_remove_shape.
    apply removeFrom_missing. apply no_identical_record, Hnone.
  - intros r -> Hin.
    destruct (in_split_first r (segments self) Hin) as (before & after & Hl & Hnot & Hrm).
    exists before, after. split; [exact Hl |]. split; [exact Hnot |].
    rewrite segments_remove_shape, <- Hrm.
    apply removeFrom_found; assumption.
  - intros Hnone. rewrite points_remove_shape.
    apply removeFrom_missing. apply no_identical_record, Hnone.
  - intros r -> Hin.
    destruct (in_split_first r (points self) Hin) as (before & after & Hl & Hnot & Hrm).
    exists before, after. split; [exact Hl |]. split; [exact Hnot |].
    rewrite points_remove_shape, <- Hrm.
    apply removeFrom_found; assumption.
Qed.

(** C4 on the sample instance: removing the stored segment at address 4
    returns it and leaves the segments 3 and 5; removing the media element,
    which is no segment, throws a [RangeError] and changes nothing. *)
Lemma remove_returns_record_or_throws_witness :
  (exists before after,
      segments Sample.annotated = before ++ 4%nat :: after /\ ~ In 4%nat before
      /\ Segments.remove (VObject 4) Sample.annotated
         = Return (VObject 4)
             (withSegments (before ++ after)
                (withTrace (trace Sample.annotated ++ [UpdateSegments]) Sample.annotated)))
  /\ Segments.remove (VObject 0) Sample.annotated
     = Throw (mkError KRangeError "Unable to find the requested segment" (VObject 0))
         Sample.annotated.
Proof.
  pose proof (remove_returns_record_or_throws (VObject 4) Sample.annotated)
    as (_ & Hfound & _).
  pose proof (remove_returns_record_or_throws (VObject 0) Sample.annotated)
    as (Hmissing & _).
  split.
  - apply (Hfound 4%nat eq_refl). cbn. auto.
  - apply Hmissing. intros r Hin. cbn in Hin.
    destruct Hin as [<- | [<- | [<- | []]]]; reflexivity.
Defined.

(** C3. [removeByTime] on segments returns normally with the number of
    segments its filter selects and leaves exactly the segments the filter
    does not select, in their order; the filter compares with [===]:
    [startTime] alone when the end time is not a number (none given) or is a
    number that is not greater than 0, and both [startTime] and [endTime]
    when the end time is a number greater than 0. On points it does the same
    with [timestamp]. Nothing is removed, and 0 returned, when no record is
    selected. *)
Theorem removeByTime_removes_exact_matches
    (startTime endTime timestamp : JsValue) (self : Peaks) :
  let h := heap self in
  let sameStart r := strictEquals (get h (VObject r) "startTime") startTime in
  let sameEnd r := strictEquals (get h (VObject r) "endTime") endTime in
  let sameTime r := strictEquals (get h (VObject r) "timestamp") timestamp in
  let selected := Segments.fnFilter h startTime endTime in
  ((forall x, endTime <> VNumber x) -> forall r, selected r = sameStart r)
  /\ (forall x, endTime = VNumber x -> SFltb zero x = false ->
        forall r, selected r = sameStart r)
  /\ (forall x, endTime = VNumber x -> SFltb zero x = true ->
        forall r, selected r = sameStart r && sameEnd r)
  /\ Segments.removeByTime startTime endTime self
     = Return (List.length (filter selected (segments self)))
         (withSegments (filter (fun r => negb (selected r)) (segments self))
            (withTrace
               (trace self
                ++ repeat UpdateSegments (List.length (filter selected (segments self))))
               self))
  /\ Points.removeByTime timestamp self
     = Return (List.length (filter sameTime (points self)))
         (withPoints (filter (fun r => negb (sameTime r)) (points self))
            (withTrace
               (trace self
                ++ repeat RenderPoints (List.length (filter sameTime (points self))))
               self))
  /\ ((forall r, In r (segments self) -> selected r = false) ->
        Segments.removeByTime startTime endTime self = Return O self)
  /\ ((forall r, In r (points self) -> sameTime r = false) ->
        Points.removeByTime timestamp self = Return O self).
Proof.
  cbv zeta.
  assert (Hseg :
    Segments.removeByTime startTime endTime self
    = Return (List.length (filter (Segments.fnFilter (heap self) startTime endTime)
                             (segments self)))
        (withSegments
           (filter (fun r => negb (Segments.fnFilter (heap self) startTime endTime r))
              (segments self))
           (withTrace
              (trace self
               ++ repeat UpdateSegments
                    (List.length (filter (Segments.fnFilter (heap self) startTime endTime)
                                    (segments self))))
              self))).
  { unfold Segments.removeByTime, bind, gets, ret.
    rewrite segments_forEach_remove. reflexivity. }
  assert (Hpt :
    Points.removeByTime timestamp self
    = Return (List.length (filter (Points.atTime (heap self) timestamp) (points self)))
        (withPoints
           (filter (fun r => negb (Points.atTime (heap self) timestamp r)) (points self))
           (withTrace
              (trace self
               ++ repeat RenderPoints
                    (List.length (filter (Points.atTime (heap self) timestamp)
                                    (points self))))
              self))).
  { unfold Points.removeByTime, bind, gets, ret.
    rewrite points_forEach_remove. reflexivity. }
  split; [| split; [| split; [| split; [| split; [| split]]]]].
  - intros Hnot r. unfold Segments.fnFilter.
    destruct endTime; cbn; try reflexivity.
    + exfalso. apply (Hnot x). reflexivity.
    + destruct (cls (deref (heap self) r0)); reflexivity.
  - intros x -> Hx r. unfold Segments.fnFilter. cbn. rewrite Hx. reflexivity.
  - intros x -> Hx r. unfold Segments.fnFilter. cbn. rewrite Hx. reflexivity.
  - exact Hseg.
  - exact Hpt.
  - intros Hnone. rewrite Hseg.
    destruct (filter_none _ _ Hnone) as [-> ->]. cbn. rewrite app_nil_r.
    destruct self; reflexivity.
  - intros Hnone. rewrite Hpt.
    destruct (filter_none (Points.atTime (heap self) timestamp) _ Hnone) as [-> ->].
    cbn. rewrite app_nil_r. destruct self; reflexivity.
Qed.

(** C3 on the sample instance, whose segments are 10-20, 10-30 and 15-20:
    [removeByTime(10)] removes the first two and returns 2;
    [removeByTime(10, 20)] removes the first and returns 1; on its points,
    at 5 and 7, [removeByTime(7)] removes the second and returns 1. *)
Lemma removeByTime_removes_exact_matches_witness :
  Segments.removeByTime (VNumber (num 10)) VUndefined Sample.annotated
  = Return 2%nat
      (withSegments [5%nat]
         (withTrace [UpdateSegments; UpdateSegments] Sample.annotated))
  /\ Segments.removeByTime (VNumber (num 10)) (VNumber (num 20)) Sample.annotated
     = Return 1%nat
         (withSegments [4%nat; 5%nat] (withTrace [UpdateSegments] Sample.annotated))
  /\ Points.removeByTime (VNumber (num 7)) Sample.annotated
     = Return 1%nat (withPoints [6%nat] (withTrace [RenderPoints] Sample.annotated)).
Proof.
  pose proof (removeByTime_removes_exact_matches
                (VNumber (num 10)) VUndefined (VNumber (num 7)) Sample.annotated) as H1.
  pose proof (removeByTime_removes_exact_matches
                (VNumber (num 10)) (VNumber (num 20)) VUndefined Sample.annotated) as H2.
  cbv zeta in H1, H2.
  destruct H1 as (_ & _ & _ & Hstart & Hpoint & _).
  destruct H2 as (_ & _ & _ & Hboth & _).
  rewrite Hstart, Hboth, Hpoint.
  repeat split.
Defined.

(** C9. [removeById(id)] on segments and on points returns normally for
    every [id] and leaves exactly the records whose [id] is not [===] to it,
    in their order, after one redraw call per removed record; when no record
    has that [id] the instance is left as it was. *)
Theorem removeById_removes_all_matches (id : JsValue) (self : Peaks) :
  let h := heap self in
  let hasId r := strictEquals (get h (VObject r) "id") id in
  Segments.removeById id self
  = Return tt
      (withSegments (filter (fun r => negb (hasId r)) (segments self))
         (withTrace
            (trace self
             ++ repeat UpdateSegments (List.length (filter hasId (segments self))))
            self))
  /\ Points.removeById id self
     = Return tt
         (withPoints (filter (fun r => negb (hasId r)) (points self))
            (withTrace
               (trace self
                ++ repeat RenderPoints (List.length (filter hasId (points self))))
               self))
  /\ ((forall r, In r (segments self) -> hasId r = false) ->
        Segments.removeById id self = Return tt self)
  /\ ((forall r, In r (points self) -> hasId r = false) ->
        Points.removeById id self = Return tt self).
Proof.
  cbv zeta.
  assert (Hseg :
    Segments.removeById id self
    = Return tt
        (withSegments
           (filter (fun r => negb (Segments.hasId (heap self) id r)) (segments self))
           (withTrace
              (trace self
               ++ repeat UpdateSegments
                    (List.length (filter (Segments.hasId (heap self) id) (segments self))))
              self))).
  { unfold Segments.removeById, bind, gets.
    rewrite segments_forEach_remove. reflexivity. }
  assert (Hpt :
    Points.removeById id self
    = Return tt
        (withPoints
           (filter (fun r => negb (Points.hasId (heap self) id r)) (points self))
           (withTrace
              (trace self
               ++ repeat RenderPoints
                    (List.length (filter (Points.hasId (heap self) id) (points self))))
              self))).
  { unfold Points.removeById, bind, gets.
    rewrite points_forEach_remove. reflexivity. }
  split; [exact Hseg |]. split; [exact Hpt |]. split.
  - intros Hnone. rewrite Hseg.
    destruct (filter_none (Segments.hasId (heap self) id) _ Hnone) as [-> ->].
    cbn. rewrite app_nil_r. destruct self; reflexivity.
  - intros Hnone. rewrite Hpt.
    destruct (filter_none (Points.hasId (heap self) id) _ Hnone) as [-> ->].
    cbn. rewrite app_nil_r. destruct self; reflexivity.
Qed.

(** C9 on the sample instance: [removeById(2)] removes the second segment;
    [removeById(9)], an id no segment has, changes nothing. *)
Lemma removeById_removes_all_matches_witness :
  Segments.removeById (VNumber (num 2)) Sample.annotated
  = Return tt (withSegments [3%nat; 5%nat] (withTrace [UpdateSegments] Sample.annotated))
  /\ Segments.removeById (VNumber (num 9)) Sample.annotated = Return tt Sample.annotated.
Proof.
  pose proof (removeById_removes_all_matches (VNumber (num 2)) Sample.annotated) as H1.
  pose proof (removeById_removes_all_matches (VNumber (num 9)) Sample.annotated) as H2.
  cbv zeta in H1, H2.
  destruct H1 as (Hrun & _). destruct H2 as (_ & _ & Hnone & _).
  split.
  - rewrite Hrun. reflexivity.
  - apply Hnone. intros r Hin. cbn in Hin.
    destruct Hin as [<- | [<- | [<- | []]]]; reflexivity.
Defined.

(** ** Adding annotations *)

Section AddFacts.

Lemma withTrace_same (self : Peaks) : withTrace (trace self) self = self.
Proof. destruct self; reflexivity. Qed.


Lemma attempted_all (create : Creator) (records : list JsValue) :
  forall h stored,
    failure (createAll create records h stored) = None ->
    attempted (createAll create records h stored) = records.
Proof.
  induction records as [| record records IH]; intros h stored; cbn [createAll].
  - reflexivity.
  - destruct (thrown (create record h stored)) as [e |]; cbn [attempted failure].
    + discriminate.
    + intros Hnone. rewrite (IH _ _ Hnone). reflexivity.
Qed.



Lemma forEach_createSegment (create : Creator) (records : list JsValue) :
  forall self,
    forEach (Segments.createSegment create) records self
    = let run := createAll create records (heap self) (segments self) in
      let self' := Batch.segmentsAfter run (map CreateSegment (attempted run)) self in
      match failure run with
      | None => Return tt self'
      | Some e => Throw e self'
      end.
Proof.
  induction records as [| record records IH]; intros self; cbn [forEach createAll].
  - cbn. unfold ret, Batch.segmentsAfter. cbn. rewrite app_nil_r.
    destruct self; reflexivity.
  - unfold bind at 1. unfold Segments.createSegment at 1.
    unfold bind at 1. unfold perform at 1. unfold modify.
    cbn [heap segments withTrace].
    destruct (thrown (create record (heap self) (segments self))) as [e |] eqn:Hthrown.
    + cbn. unfold Batch.segmentsAfter. destruct self; reflexivity.
    + rewrite IH. cbn [heap segments withSegments withHeap attempted heapAfter
                         sequenceAfter failure map].
      cbv zeta.
      destruct (failure _) as [e |]; unfold Batch.segmentsAfter; destruct self; cbn;
        rewrite <- app_assoc; reflexivity.
Qed.

Lemma forEach_createPoint (create : Creator) (records : list JsValue) :
  forall self,
    forEach (Points.createPoint create) records self
    = let run := createAll create records (heap self) (points self) in
      let self' := Batch.pointsAfter run (map CreatePoint (attempted run)) self in
      match failure run with
      | None => Return tt self'
      | Some e => Throw e self'
      end.
Proof.
  induction records as [| record records IH]; intros self; cbn [forEach createAll].
  - cbn. unfold ret, Batch.pointsAfter. cbn. rewrite app_nil_r.
    destruct self; reflexivity.
  - unfold bind at 1. unfold Points.createPoint at 1.
    unfold bind at 1. unfold perform at 1. unfold modify.
    cbn [heap points withTrace].
    destruct (thrown (create record (heap self) (points self))) as [e |] eqn:Hthrown.
    + cbn. unfold Batch.pointsAfter. destruct self; reflexivity.
    + rewrite IH. cbn [heap points withPoints withHeap attempted heapAfter
                         sequenceAfter failure map].
      cbv zeta.
      destruct (failure _) as [e |]; unfold Batch.pointsAfter; destruct self; cbn;
        rewrite <- app_assoc; reflexivity.
Qed.


Lemma bind_run {A B : Type} (m : M Peaks A) (k : A -> M Peaks B) (self self' : Peaks) (a : A) :
  m self = Return a self' -> bind m k self = k a self'.
Proof. intros H. unfold bind. rewrite H. reflexivity. Qed.

Lemma bind_throw {A B : Type} (m : M Peaks A) (k : A -> M Peaks B) (self self' : Peaks)
    (e : JsError) :
  m self = Throw e self' -> bind m k self = Throw e self'.
Proof. intros H. unfold bind. rewrite H. reflexivity. Qed.

Lemma addSegment_step (create : Creator) (arguments : list JsValue) (self : Peaks) :
  Segments.addSegment create arguments self
  = bind
      (if String.eqb (typeof (heap self) (arg (Batch.batch (heap self) arguments) 0)) "number"
       then
         bind (gets deprecationLogger) (fun deprecationLogger =>
         bind (call deprecationLogger [VString Segments.notice]) (fun _ =>
         bind (new (mkObject ClsObject
                      [("startTime", arg arguments 0);
                       ("endTime", arg arguments 1);
                       ("editable", arg arguments 2);
                       ("color", arg arguments 3);
                       ("labelText", arg arguments 4)] []))
              (fun r => ret [VObject r])))
       else ret (Batch.batch (heap self) arguments))
      (fun segments =>
         bind (forEach (Segments.createSegment create) segments)
           (fun _ => perform RenderSegments))
      self.
Proof. reflexivity. Qed.

Lemma points_add_step (create : Creator) (arguments : list JsValue) (self : Peaks) :
  Points.add create arguments self
  = bind
      (if String.eqb (typeof (heap self) (arg (Batch.batch (heap self) arguments) 0)) "number"
       then
         bind (gets deprecationLogger) (fun deprecationLogger =>
         bind (call deprecationLogger [VString Points.notice]) (fun _ =>
         bind (new (mkObject ClsObject
                      [("timestamp", arg arguments 0);
                       ("editable", arg arguments 1);
                       ("color", arg arguments 2);
                       ("labelText", arg arguments 3)] []))
              (fun r => ret [VObject r])))
       else ret (Batch.batch (heap self) arguments))
      (fun points =>
         bind (forEach (Points.createPoint create) points) (fun _ => perform RenderPoints))
      self.
Proof. reflexivity. Qed.

(** The two ways the creations of a batch end. *)
Lemma segments_created (create : Creator) (records : list JsValue) (self : Peaks) :
  bind (forEach (Segments.createSegment create) records) (fun _ => perform RenderSegments) self
  = let run := createAll create records (heap self) (segments self) in
    match failure run with
    | None =>
        Return tt (Batch.segmentsAfter run (map CreateSegment records ++ [RenderSegments]) self)
    | Some e => Throw e (Batch.segmentsAfter run (map CreateSegment (attempted run)) self)
    end.
Proof.
  unfold bind. rewrite forEach_createSegment. cbv zeta.
  destruct (failure _) as [e |] eqn:Hfailure; [reflexivity |].
  rewrite (attempted_all _ _ _ _ Hfailure).
  unfold perform, modify, Batch.segmentsAfter. cbn.
  rewrite <- app_assoc. reflexivity.
Qed.

Lemma points_created (create : Creator) (records : list JsValue) (self : Peaks) :
  bind (forEach (Points.createPoint create) records) (fun _ => perform RenderPoints) self
  = let run := createAll create records (heap self) (points self) in
    match failure run with
    | None =>
        Return tt (Batch.pointsAfter run (map CreatePoint records ++ [RenderPoints]) self)
    | Some e => Throw e (Batch.pointsAfter run (map CreatePoint (attempted run)) self)
    end.
Proof.
  unfold bind. rewrite forEach_createPoint. cbv zeta.
  destruct (failure _) as [e |] eqn:Hfailure; [reflexivity |].
  rewrite (attempted_all _ _ _ _ Hfailure).
  unfold perform, modify, Batch.pointsAfter. cbn.
  rewrite <- app_assoc. reflexivity.
Qed.

Lemma addSegment_plain (create : Creator) (arguments : list JsValue) (self : Peaks) :
  String.eqb (typeof (heap self) (arg (Batch.batch (heap self) arguments) 0)) "number" = false ->
  Segments.addSegment create arguments self
  = let run := createAll create (Batch.batch (heap self) arguments) (heap self) (segments self) in
    match failure run with
    | None =>
        Return tt
          (Batch.segmentsAfter run
             (map CreateSegment (Batch.batch (heap self) arguments) ++ [RenderSegments]) self)
    | Some e => Throw e (Batch.segmentsAfter run (map CreateSegment (attempted run)) self)
    end.
Proof.
  intros Hplain. rewrite addSegment_step, Hplain.
  erewrite bind_run by reflexivity. apply segments_created.
Qed.

Lemma points_add_plain (create : Creator) (arguments : list JsValue) (self : Peaks) :
  String.eqb (typeof (heap self) (arg (Batch.batch (heap self) arguments) 0)) "number" = false ->
  Points.add create arguments self
  = let run := createAll create (Batch.batch (heap self) arguments) (heap self) (points self) in
    match failure run with
    | None =>
        Return tt
          (Batch.pointsAfter run
             (map CreatePoint (Batch.batch (heap self) arguments) ++ [RenderPoints]) self)
    | Some e => Throw e (Batch.pointsAfter run (map CreatePoint (attempted run)) self)
    end.
Proof.
  intros Hplain. rewrite points_add_step, Hplain.
  erewrite bind_run by reflexivity. apply points_created.
Qed.

Lemma add_uncallable (create : Creator) (arguments : list JsValue) (self : Peaks) :
  String.eqb (typeof (heap self) (arg (Batch.batch (heap self) arguments) 0)) "number" = true ->
  typeof (heap self) (deprecationLogger self) <> "function" ->
  Segments.addSegment create arguments self
  = Throw (mkError KTypeError "is not a function" (deprecationLogger self)) self
  /\ Points.add create arguments self
     = Throw (mkError KTypeError "is not a function" (deprecationLogger self)) self.
Proof.
  intros Hlegacy Hfun. apply String.eqb_neq in Hfun.
  split.
  - rewrite addSegment_step, Hlegacy.
    unfold bind, gets, call, throw. cbn. rewrite Hfun. reflexivity.
  - rewrite points_add_step, Hlegacy.
    unfold bind, gets, call, throw. cbn. rewrite Hfun. reflexivity.
Qed.




End AddFacts.

(** ** Start-up checks *)

Section InitFacts.

Import Init.

Lemma deref_nil (r : ref) : deref [] r = emptyObject.
Proof. destruct r; reflexivity. Qed.

Lemma deref_alloc_empty (h : Heap) :
  forall r, deref (h ++ [emptyObject]) r = deref h r.
Proof.
  induction h as [| o h IH]; intros r.
  - destruct r as [| r]; [reflexivity |]. cbn. destruct r; reflexivity.
  - destruct r as [| r]; [reflexivity |]. apply IH.
Qed.

Lemma deref_update (f : JsObject -> JsObject) (h : Heap) :
  forall r r',
    deref (update r f h) r'
    = if (Nat.eqb r r' && Nat.ltb r (List.length h))%bool then f (deref h r')
      else deref h r'.
Proof.
  induction h as [| o h IH]; intros r r'.
  - replace (update r f []) with (@nil JsObject) by (destruct r; reflexivity).
    cbn [List.length].
    replace (Nat.ltb r 0) with false by (symmetry; apply Nat.ltb_ge; lia).
    rewrite andb_false_r. reflexivity.
  - destruct r as [| r], r' as [| r']; cbn [update]; try reflexivity.
    change (deref (o :: update r f h) (S r')) with (deref (update r f h) r').
    rewrite IH. reflexivity.
Qed.

Lemma assoc_assocSet_same (k : string) (v : JsValue) (l : list (string * JsValue)) :
  assoc k (assocSet k v l) = Some v.
Proof.
  induction l as [| [k' v'] l IH]; cbn.
  - rewrite String.eqb_refl. reflexivity.
  - destruct (String.eqb k k') eqn:E; cbn; rewrite E; [reflexivity | exact IH].
Qed.

Lemma assoc_assocSet_other (k k' : string) (v : JsValue) (l : list (string * JsValue)) :
  k' <> k -> assoc k' (assocSet k v l) = assoc k' l.
Proof.
  intros Hneq. induction l as [| [k0 v0] l IH]; cbn.
  - apply String.eqb_neq in Hneq. rewrite Hneq. reflexivity.
  - destruct (String.eqb k k0) eqn:E; cbn.
    + apply String.eqb_eq in E. subst k0.
      apply String.eqb_neq in Hneq. rewrite Hneq. reflexivity.
    + rewrite IH. reflexivity.
Qed.

Lemma cls_set (r : ref) (k : string) (v : JsValue) (h : Heap) (x : ref) :
  cls (deref (set r k v h) x) = cls (deref h x).
Proof.
  unfold set. rewrite deref_update.
  destruct (Nat.eqb r x && Nat.ltb r (List.length h))%bool; reflexivity.
Qed.

Lemma getProp_set_other (r : ref) (k k' : string) (v : JsValue) (h : Heap) (x : ref) :
  k' <> k -> getProp (deref (set r k v h) x) k' = getProp (deref h x) k'.
Proof.
  intros Hneq. unfold set. rewrite deref_update.
  destruct (Nat.eqb r x && Nat.ltb r (List.length h))%bool; [| reflexivity].
  unfold getProp, setProp; cbn. rewrite assoc_assocSet_other by exact Hneq. reflexivity.
Qed.

Lemma getProp_set_same (r : ref) (k : string) (v : JsValue) (h : Heap) :
  r < List.length h -> getProp (deref (set r k v h) r) k = v.
Proof.
  intros Hlt. unfold set. rewrite deref_update, Nat.eqb_refl.
  apply Nat.ltb_lt in Hlt. rewrite Hlt. cbn.
  unfold getProp, setProp; cbn. rewrite assoc_assocSet_same. reflexivity.
Qed.

Lemma getProp_dangling (h : Heap) (r : ref) (k : string) :
  List.length h <= r -> getProp (deref h r) k = VUndefined.
Proof.
  intros Hle. unfold deref. rewrite nth_overflow by exact Hle. reflexivity.
Qed.

Lemma prepare_object (r : ref) (w : World) :
  failed (prepare (VObject r) w)
  \/ exists w',
       prepare (VObject r) w = Return (VObject r) w'
       /\ sameView (wheap w) (wheap w') r.
Proof.
  destruct w as [h eff].
  unfold prepare, bind, ret, gets, assign, modify; cbn [truthy wheap weffects].
  set (dl := if truthy (get h (VObject r) "deprecationLogger")
             then get h (VObject r) "deprecationLogger" else consoleLog).
  set (h1 := set r "deprecationLogger" dl h).
  assert (Haudio : get h1 (VObject r) "audioElement" = get h (VObject r) "audioElement").
  { cbn [get]. apply getProp_set_other. discriminate. }
  assert (Hmedia : get h1 (VObject r) "mediaElement" = get h (VObject r) "mediaElement").
  { cbn [get]. apply getProp_set_other. discriminate. }
  rewrite Haudio.
  destruct (truthy (get h (VObject r) "audioElement")) eqn:Etruthy.
  - unfold apply, bind, gets, modify, throw; cbn [wheap weffects].
    match goal with
    | |- context [String.eqb ?a ?b] => destruct (String.eqb a b)
    end.
    + right. eexists. split; [reflexivity |]. cbn [wheap].
      assert (Hlt : r < List.length h1).
      { destruct (Nat.lt_ge_cases r (List.length h1)) as [Hlt | Hge]; [exact Hlt |].
        exfalso. rewrite <- Haudio in Etruthy. cbn [get] in Etruthy.
        rewrite getProp_dangling in Etruthy by exact Hge. discriminate. }
      split; [| split].
      * intros x. subst h1. rewrite !cls_set. reflexivity.
      * intros x k Hk1 Hk2. subst h1. rewrite !getProp_set_other by assumption.
        reflexivity.
      * rewrite getProp_set_same by exact Hlt.
        unfold mediaElementOf. rewrite Etruthy. reflexivity.
    + left. eexists. eexists. reflexivity.
  - right. eexists. split; [reflexivity |]. cbn [wheap].
    split; [| split].
    + intros x. subst h1. rewrite cls_set. reflexivity.
    + intros x k Hk1 Hk2. subst h1. rewrite getProp_set_other by assumption. reflexivity.
    + cbn [get] in Hmedia. rewrite Hmedia.
      unfold mediaElementOf. rewrite Etruthy. reflexivity.
Qed.

Lemma prepare_default (opts : JsValue) (w : World) :
  truthy opts = false ->
  prepare opts w
  = prepare (VObject (List.length (wheap w)))
      (mkWorld (wheap w ++ [emptyObject]) (weffects w)).
Proof.
  intros Hfalsy. unfold prepare at 1. unfold bind at 1. rewrite Hfalsy.
  reflexivity.
Qed.

Lemma prepare_primitive (opts : JsValue) (w : World) :
  truthy opts = true -> (forall r, opts <> VObject r) ->
  (forall name, opts <> VNative name) -> failed (prepare opts w).
Proof.
  intros Htruthy Hprim Hnative. unfold prepare, bind, ret. rewrite Htruthy.
  destruct opts; try discriminate; cbn;
    try (eexists; eexists; reflexivity).
  - exfalso. apply (Hprim r). reflexivity.
  - exfalso. apply (Hnative name). reflexivity.
Qed.

Lemma prepare_native (name : string) (w : World) :
  prepare (VNative name) w = Return (VNative name) w.
Proof. destruct w; reflexivity. Qed.

Lemma checks_throw (opts : JsValue) (w : World) :
  let h := wheap w in
  truthy (get h opts "mediaElement") = false
  \/ instanceofHTMLMediaElement h (get h opts "mediaElement") = false
  \/ truthy (get h opts "container") = false
  \/ greaterThanZero (get h (get h opts "container") "clientWidth") = false
  \/ (truthy (get h opts "logger") = true
      /\ String.eqb (typeof h (get h opts "logger")) "function" = false) ->
  failed (checks opts w).
Proof.
  cbv zeta. intros H. unfold checks, bind, gets, throw, failed.
  destruct (truthy (get (wheap w) opts "mediaElement"));
    cbn [negb]; [| eexists; eexists; reflexivity].
  destruct (instanceofHTMLMediaElement (wheap w) (get (wheap w) opts "mediaElement"));
    cbn [negb]; [| eexists; eexists; reflexivity].
  destruct (truthy (get (wheap w) opts "container"));
    cbn [negb]; [| eexists; eexists; reflexivity].
  destruct (greaterThanZero (get (wheap w) (get (wheap w) opts "container") "clientWidth"));
    cbn [negb]; [| eexists; eexists; reflexivity].
  destruct H as [H | [H | [H | [H | [H1 H2]]]]]; try discriminate.
  rewrite H1, H2. cbn. eexists; eexists; reflexivity.
Qed.

Lemma get_sameView (h h' : Heap) (r : ref) (v : JsValue) (k : string) :
  sameView h h' r -> k <> "deprecationLogger" -> k <> "mediaElement" ->
  get h' v k = get h v k.
Proof.
  intros (_ & Hget & _) Hk1 Hk2. destruct v; try reflexivity.
  cbn [get]. apply Hget; assumption.
Qed.

Lemma typeof_sameView (h h' : Heap) (r : ref) (v : JsValue) :
  sameView h h' r -> typeof h' v = typeof h v.
Proof.
  intros (Hcls & _). destruct v; try reflexivity. cbn. rewrite Hcls. reflexivity.
Qed.

Lemma instanceof_sameView (h h' : Heap) (r : ref) (v : JsValue) :
  sameView h h' r -> instanceofHTMLMediaElement h' v = instanceofHTMLMediaElement h v.
Proof.
  intros (Hcls & _). destruct v; try reflexivity. cbn. rewrite Hcls. reflexivity.
Qed.

Lemma init_after_prepare (opts opts' : JsValue) (w w' : World) :
  prepare opts w = Return opts' w' -> failed (checks opts' w') -> failed (init opts w).
Proof.
  intros Hprep (e & s & Hchk). unfold init, bind. rewrite Hprep, Hchk.
  exists e, s. reflexivity.
Qed.

Lemma init_prepare_failed (opts : JsValue) (w : World) :
  failed (prepare opts w) -> failed (init opts w).
Proof.
  intros (e & s & Hprep). unfold init, bind. rewrite Hprep. exists e, s. reflexivity.
Qed.

(** C6. [Peaks.init] ends by a throw, before any instance is constructed,
    whenever the media element (the [mediaElement] option, or the deprecated
    [audioElement] option standing in for it) is missing or is not an
    [HTMLMediaElement], the container is missing, the container's
    [clientWidth] is [undefined] or a number that is not greater than 0, or
    a logger is supplied (the [logger] option is truthy) and is not a
    function. *)
Theorem init_fails_fast (opts : JsValue) (w : World) :
  let h := wheap w in
  let media := mediaElementOf h opts in
  let container := get h opts "container" in
  let width := get h container "clientWidth" in
  let logger := get h opts "logger" in
  truthy media = false
  \/ instanceofHTMLMediaElement h media = false
  \/ truthy container = false
  \/ (width = VUndefined \/ exists x, width = VNumber x /\ SFltb zero x = false)
  \/ (truthy logger = true /\ typeof h logger <> "function") ->
  failed (init opts w).
Proof.
  cbv zeta. intros H.
  destruct (truthy opts) eqn:Etruthy.
  - destruct opts as [| | b | x | s | r | name];
      try (apply init_prepare_failed, prepare_primitive;
           [exact Etruthy | intros r; discriminate | intros name; discriminate]).
    2: { apply (init_after_prepare _ _ _ _ (prepare_native name w)).
         apply checks_throw. left. reflexivity. }
    destruct (prepare_object r w) as [Hfail | (w' & Hprep & Hview)];
      [apply init_prepare_failed; exact Hfail |].
    apply (init_after_prepare _ _ _ _ Hprep).
    apply checks_throw. cbv zeta.
    pose proof Hview as (_ & _ & Hmedia).
    change (get (wheap w') (VObject r) "mediaElement")
      with (getProp (deref (wheap w') r) "mediaElement").
    rewrite Hmedia.
    rewrite (instanceof_sameView _ _ _ _ Hview).
    rewrite (get_sameView _ _ _ (VObject r) "container" Hview) by discriminate.
    rewrite (get_sameView _ _ _ _ "clientWidth" Hview) by discriminate.
    rewrite (get_sameView _ _ _ (VObject r) "logger" Hview) by discriminate.
    rewrite (typeof_sameView _ _ _ _ Hview).
    destruct H as [H | [H | [H | [H | [H1 H2]]]]].
    + left; exact H.
    + right; left; exact H.
    + right; right; left; exact H.
    + right; right; right; left.
      destruct H as [-> | (x & -> & Hx)]; [reflexivity | exact Hx].
    + right; right; right; right. split; [exact H1 |].
      apply String.eqb_neq. exact H2.
  - unfold init, bind at 1. rewrite (prepare_default _ _ Etruthy).
    set (w0 := mkWorld (wheap w ++ [emptyObject]) (weffects w)).
    set (r := List.length (wheap w)).
    destruct (prepare_object r w0) as [(e & s & Hfail) | (w' & Hprep & Hview)].
    + rewrite Hfail. exists e, s. reflexivity.
    + rewrite Hprep.
      apply checks_throw. cbv zeta. left.
      destruct Hview as (_ & _ & Hmedia).
      change (get (wheap w') (VObject r) "mediaElement")
        with (getProp (deref (wheap w') r) "mediaElement").
      rewrite Hmedia. unfold mediaElementOf, get. subst w0 r. cbn [wheap].
      rewrite !deref_alloc_empty.
      rewrite !getProp_dangling by apply Nat.le_refl. reflexivity.
Qed.

(** C6 on the sample options, which are valid, each spoilt in one way: no
    options at all; a container of width 0; a logger that is a string. *)
Lemma init_fails_fast_witness :
  failed (init VUndefined Sample.world)
  /\ failed (init (VObject 2)
               (mkWorld
                  [Sample.mediaElement;
                   mkObject ClsHTMLElement [("clientWidth", VNumber zero)] [];
                   Sample.options] []))
  /\ failed (init (VObject 2)
               (mkWorld
                  [Sample.mediaElement; Sample.containerElement;
                   setProp "logger" (VString "print") Sample.options] [])).
Proof.
  split; [| split].
  - apply (init_fails_fast VUndefined Sample.world). left. reflexivity.
  - apply (init_fails_fast (VObject 2)). cbv zeta.
    right; right; right; left. right. exists zero. split; reflexivity.
  - apply (init_fails_fast (VObject 2)). cbv zeta.
    right; right; right; right. split; [reflexivity | discriminate].
Defined.

(** The sample options themselves pass the five checks: [Peaks.init] goes
    on to the construction. *)
Example init_sample :
  exists w',
    prepare (VObject 2) Sample.world = Return (VObject 2) w'
    /\ checks (VObject 2) w' = construct (VObject 2) w'.
Proof.
  eexists. split; [vm_compute; reflexivity |].
  vm_compute. reflexivity.
Qed.

End InitFacts.

(** ** Runs of zoom calls *)

Section ZoomRunFacts.

Import Zoom ZoomRuns.
Local Open Scope Z_scope.

(** [n] times [zoomOut] from an index in range: [n] levels up, but not
    above the last. *)
Lemma times_zoomOut (n : nat) :
  forall self, inRange self ->
    exists t,
      times n zoomOut self =
      Return tt
        (withTrace t
           (withCurrentZoomLevel
              (Z.min (zoomLevelsLength self - 1) (currentZoomLevel self + Z.of_nat n)) self)).
Proof.
  induction n as [| n IH]; intros self Hr; unfold inRange, zoomOf in Hr.
  - exists (trace self). cbn [times]. unfold ret.
    replace (Z.min (zoomLevelsLength self - 1) (currentZoomLevel self + Z.of_nat 0))
      with (currentZoomLevel self) by lia.
    destruct self; reflexivity.
  - rewrite times_S, zoomOut_run, setZoom_run. cbv beta iota zeta.
    match goal with |- context [times n zoomOut ?s] => destruct (IH s) as [t Ht] end.
    { unfold inRange, zoomOf, zoomLevelsLength in *; cbn. unfold clamp. lia. }
    exists t. rewrite Ht. cbn. unfold withTrace, withCurrentZoomLevel; cbn.
    f_equal. f_equal. unfold zoomLevelsLength in *. cbn. unfold clamp. lia.
Qed.

(** X1. From an index [c] in range, [n] calls of [zoomIn()] end at
    [max(0, c - n)] and [n] calls of [zoomOut()] at [min(len - 1, c + n)];
    none of them throws. *)
Theorem zoom_steps_saturate (n : nat) (self : Peaks) :
  inRange self ->
  (exists self',
      times n zoomIn self = Return tt self'
      /\ getZoom self' = Return (Z.max 0 (currentZoomLevel self - Z.of_nat n)) self')
  /\ (exists self',
        times n zoomOut self = Return tt self'
        /\ getZoom self'
           = Return (Z.min (zoomLevelsLength self - 1) (currentZoomLevel self + Z.of_nat n))
               self').
Proof.
  intros Hr. split.
  - destruct (times_zoomIn n self Hr) as [t Ht].
    eexists. split; [exact Ht | reflexivity].
  - destruct (times_zoomOut n self Hr) as [t Ht].
    eexists. split; [exact Ht | reflexivity].
Qed.

(** X1 on the sample instance at level 1: two calls of [zoomIn()] end at 0,
    five calls of [zoomOut()] at 3. *)
Lemma zoom_steps_saturate_witness :
  inRange (withCurrentZoomLevel 1 Sample.peaks)
  /\ (exists self',
        times 2 zoomIn (withCurrentZoomLevel 1 Sample.peaks) = Return tt self'
        /\ getZoom self' = Return 0 self')
  /\ (exists self',
        times 5 zoomOut (withCurrentZoomLevel 1 Sample.peaks) = Return tt self'
        /\ getZoom self' = Return 3 self').
Proof.
  assert (Hr : inRange (withCurrentZoomLevel 1 Sample.peaks))
    by (unfold inRange, zoomOf, zoomLevelsLength; cbn; lia).
  split; [exact Hr |].
  split.
  - exact (proj1 (zoom_steps_saturate 2 _ Hr)).
  - exact (proj2 (zoom_steps_saturate 5 _ Hr)).
Defined.

(** X2. Below the last level, [zoomOut()] then [zoomIn()] comes back to the
    level it started from, with two events that mirror each other; above
    level 0 so does [zoomIn()] then [zoomOut()]. At the last level
    [zoomOut()] then [zoomIn()] ends one level lower, and at level 0
    [zoomIn()] then [zoomOut()] one level higher, when there are two levels
    or more. *)
Theorem zoom_there_and_back (self : Peaks) :
  let len := zoomLevelsLength self in
  let c := currentZoomLevel self in
  let at_ i := index (zoomLevels self) i in
  (0 <= c < len - 1 ->
     bind zoomOut (fun _ => zoomIn) self
     = Return tt
         (withTrace
            (trace self
             ++ [Emit "zoom.update" [at_ (c + 1); at_ c];
                 Emit "zoom.update" [at_ c; at_ (c + 1)]])
            self))
  /\ (0 < c < len ->
        bind zoomIn (fun _ => zoomOut) self
        = Return tt
            (withTrace
               (trace self
                ++ [Emit "zoom.update" [at_ (c - 1); at_ c];
                    Emit "zoom.update" [at_ c; at_ (c - 1)]])
               self))
  /\ (2 <= len -> c = len - 1 ->
        zoomOf (stateOf (bind zoomOut (fun _ => zoomIn) self)) = len - 2)
  /\ (2 <= len -> c = 0 ->
        zoomOf (stateOf (bind zoomIn (fun _ => zoomOut) self)) = 1).
Proof.
  cbv zeta. destruct self as [h zl dl lg ct c ov sg pt tr].
  unfold zoomLevelsLength, zoomOf; cbn [zoomLevels currentZoomLevel trace].
  split; [| split; [| split]].
  - intros Hc. erewrite bind_run by (rewrite zoomOut_run; apply setZoom_run).
    rewrite zoomIn_run, setZoom_run.
    unfold zoomLevelsLength, withTrace, withCurrentZoomLevel. cbn.
    replace (clamp 0 (Z.of_nat (List.length zl) - 1) (c + 1)) with (c + 1)
      by (unfold clamp; lia).
    replace (clamp 0 (Z.of_nat (List.length zl) - 1) (c + 1 - 1)) with c
      by (unfold clamp; lia).
    rewrite <- app_assoc. reflexivity.
  - intros Hc. erewrite bind_run by (rewrite zoomIn_run; apply setZoom_run).
    rewrite zoomOut_run, setZoom_run.
    unfold zoomLevelsLength, withTrace, withCurrentZoomLevel. cbn.
    replace (clamp 0 (Z.of_nat (List.length zl) - 1) (c - 1)) with (c - 1)
      by (unfold clamp; lia).
    replace (clamp 0 (Z.of_nat (List.length zl) - 1) (c - 1 + 1)) with c
      by (unfold clamp; lia).
    rewrite <- app_assoc. reflexivity.
  - intros Hlen Hc. erewrite bind_run by (rewrite zoomOut_run; apply setZoom_run).
    rewrite zoomIn_run, setZoom_run.
    unfold zoomLevelsLength, withTrace, withCurrentZoomLevel. cbn.
    unfold clamp. lia.
  - intros Hlen Hc. erewrite bind_run by (rewrite zoomIn_run; apply setZoom_run).
    rewrite zoomOut_run, setZoom_run.
    unfold zoomLevelsLength, withTrace, withCurrentZoomLevel. cbn.
    unfold clamp. lia.
Qed.

(** X2 on the sample instance at level 3, the last: out and in again ends
    at level 2; at level 1 it comes back to level 1. *)
Lemma zoom_there_and_back_witness :
  zoomOf (stateOf (bind zoomOut (fun _ => zoomIn) (withCurrentZoomLevel 3 Sample.peaks))) = 2
  /\ zoomOf (stateOf (bind zoomOut (fun _ => zoomIn) (withCurrentZoomLevel 1 Sample.peaks))) = 1.
Proof.
  pose proof (zoom_there_and_back (withCurrentZoomLevel 3 Sample.peaks)) as H3.
  pose proof (zoom_there_and_back (withCurrentZoomLevel 1 Sample.peaks)) as H1.
  cbv zeta in H3, H1.
  destruct H3 as (_ & _ & Htop & _). destruct H1 as (Hback & _).
  split.
  - apply Htop; cbn; [lia | reflexivity].
  - rewrite Hback by (cbn; lia). reflexivity.
Defined.

Lemma sameButZoom_refl (self : Peaks) : sameButZoom self self.
Proof. repeat split. Qed.

Lemma sameButZoom_trans (a b c : Peaks) :
  sameButZoom a b -> sameButZoom b c -> sameButZoom a c.
Proof.
  unfold sameButZoom. intros H1 H2.
  destruct H1 as (A1 & A2 & A3 & A4 & A5 & A6 & A7 & A8).
  destruct H2 as (B1 & B2 & B3 & B4 & B5 & B6 & B7 & B8).
  repeat split; congruence.
Qed.

(** X3. Any sequence of [setZoom], [zoomIn] and [zoomOut] calls returns
    normally, emits exactly one ["zoom.update"] event per call and nothing
    else, and changes nothing of the instance but the zoom index. The
    events are chained: the first starts from the scale of the level the
    instance was at, and each later one from the scale the one before it
    ended on. *)
Theorem zoom_calls_chain (cs : list ZoomCall) :
  forall self,
    exists events self',
      forEach zoomCall cs self = Return tt self'
      /\ trace self' = trace self ++ events
      /\ List.length events = List.length cs
      /\ Forall (fun e => isZoomUpdate e = true) events
      /\ chained (index (zoomLevels self) (currentZoomLevel self)) events
      /\ sameButZoom self self'.
Proof.
  induction cs as [| c cs IH]; intros self.
  - exists [], self. cbn. unfold ret. rewrite app_nil_r.
    repeat split. constructor.
  - destruct (zoomCall_run c self) as [i Hrun].
    cbn [forEach]. erewrite bind_run by exact Hrun.
    match goal with
    | |- context [forEach zoomCall cs ?s] =>
        destruct (IH s) as (events & self' & Hrest & Htrace & Hlen & Hall & Hchain & Hsame)
    end.
    eexists (_ :: events), self'.
    split; [exact Hrest |].
    split; [rewrite Htrace; cbn; rewrite <- app_assoc; reflexivity |].
    split; [cbn; rewrite Hlen; reflexivity |].
    split; [constructor; [reflexivity | exact Hall] |].
    split; [split; [reflexivity | exact Hchain] |].
    eapply sameButZoom_trans; [| exact Hsame]. repeat split.
Qed.

(** X4. [overview()] does not move the instance: a [setZoom] call after it
    starts, in its event, from the scale of the current level and not from
    the overview scale; and [overview()] followed by [reset()] is a pair of
    events there and back that leaves the instance as it was. *)
Theorem overview_is_not_a_level (zoomLevelIndex : Z) (self : Peaks) :
  let scale := overviewScale self in
  let current := index (zoomLevels self) (currentZoomLevel self) in
  let clamped := clamp 0 (zoomLevelsLength self - 1) zoomLevelIndex in
  bind zoomToOverview (fun _ => setZoom zoomLevelIndex) self
  = Return tt
      (withTrace
         (trace self
          ++ [Emit "zoom.update" [scale; current];
              Emit "zoom.update" [index (zoomLevels self) clamped; current]])
         (withCurrentZoomLevel clamped self))
  /\ bind zoomToOverview (fun _ => resetOverview) self
     = Return tt
         (withTrace
            (trace self
             ++ [Emit "zoom.update" [scale; current];
                 Emit "zoom.update" [current; scale]])
            self).
Proof.
  cbv zeta. split.
  - erewrite bind_run by reflexivity. rewrite setZoom_run. cbn.
    rewrite <- app_assoc. reflexivity.
  - unfold bind, zoomToOverview, resetOverview, gets, emit, perform, modify, bind. cbn.
    rewrite <- app_assoc. reflexivity.
Qed.

(** X5. With an empty list of zoom levels every [setZoom], [zoomIn] and
    [zoomOut] call still returns normally: it puts the index at 0, which is
    no level, and emits one event whose two scale factors are
    [undefined]. *)
Theorem zoom_without_levels (c : ZoomCall) (self : Peaks) :
  zoomLevels self = [] ->
  zoomCall c self
  = Return tt
      (withTrace (trace self ++ [Emit "zoom.update" [VUndefined; VUndefined]])
         (withCurrentZoomLevel 0 self)).
Proof.
  intros Hnil. destruct (zoomCall_run c self) as [i ->].
  unfold zoomLevelsLength. rewrite Hnil. cbn [List.length Z.of_nat].
  replace (clamp 0 (0 - 1) i) with 0 by (unfold clamp; lia).
  assert (Hidx : forall z, index [] z = VUndefined).
  { intros z. unfold index. destruct (z <? 0); [reflexivity |].
    destruct (Z.to_nat z); reflexivity. }
  rewrite !Hidx. reflexivity.
Qed.

(** X5 on an instance without levels: [setZoom(2)] ends at index 0. *)
Lemma zoom_without_levels_witness :
  zoomCall (CallSetZoom 2)
    (mkPeaks [] [] Init.consoleLog Init.consoleError VUndefined 0 VUndefined [] [] [])
  = Return tt
      (mkPeaks [] [] Init.consoleLog Init.consoleError VUndefined 0 VUndefined [] []
         [Emit "zoom.update" [VUndefined; VUndefined]]).
Proof.
  exact (zoom_without_levels (CallSetZoom 2)
           (mkPeaks [] [] Init.consoleLog Init.consoleError VUndefined 0 VUndefined [] [] [])
           eq_refl).
Defined.

End ZoomRunFacts.

(** ** Removal, composed and at its edges *)

Section RemoveMoreFacts.

Lemma filter_lengths (f : ref -> bool) (l : list ref) :
  (List.length (filter f l) + List.length (filter (fun r => negb (f r)) l))%nat
  = List.length l.
Proof.
  induction l as [| x l IH]; [reflexivity |].
  cbn [filter]. destruct (f x); cbn [negb List.length]; lia.
Qed.

Lemma filter_of_rest (f : ref -> bool) (l : list ref) :
  filter f (filter (fun r => negb (f r)) l) = [].
Proof.
  induction l as [| x l IH]; [reflexivity |].
  cbn [filter]. destruct (f x) eqn:E; cbn [negb]; [exact IH |].
  cbn [filter]. rewrite E. exact IH.
Qed.

Lemma filter_rest_twice (f : ref -> bool) (l : list ref) :
  filter (fun r => negb (f r)) (filter (fun r => negb (f r)) l)
  = filter (fun r => negb (f r)) l.
Proof.
  induction l as [| x l IH]; [reflexivity |].
  cbn [filter]. destruct (f x) eqn:E; cbn [negb]; [exact IH |].
  cbn [filter]. rewrite E. cbn [negb]. rewrite IH. reflexivity.
Qed.

Lemma segments_removeByTime_run (startTime endTime : JsValue) (self : Peaks) :
  Segments.removeByTime startTime endTime self
  = Return (List.length (filter (Segments.fnFilter (heap self) startTime endTime)
                           (segments self)))
      (withSegments
         (filter (fun r => negb (Segments.fnFilter (heap self) startTime endTime r))
            (segments self))
         (withTrace
            (trace self
             ++ repeat UpdateSegments
                  (List.length (filter (Segments.fnFilter (heap self) startTime endTime)
                                  (segments self))))
            self)).
Proof.
  unfold Segments.removeByTime, bind, gets, ret.
  rewrite segments_forEach_remove. reflexivity.
Qed.

Lemma points_removeByTime_run (timestamp : JsValue) (self : Peaks) :
  Points.removeByTime timestamp self
  = Return (List.length (filter (Points.atTime (heap self) timestamp) (points self)))
      (withPoints
         (filter (fun r => negb (Points.atTime (heap self) timestamp r)) (points self))
         (withTrace
            (trace self
             ++ repeat RenderPoints
                  (List.length (filter (Points.atTime (heap self) timestamp)
                                  (points self))))
            self)).
Proof.
  unfold Points.removeByTime, bind, gets, ret.
  rewrite points_forEach_remove. reflexivity.
Qed.

Lemma segments_removeById_run (id : JsValue) (self : Peaks) :
  Segments.removeById id self
  = Return tt
      (withSegments
         (filter (fun r => negb (Segments.hasId (heap self) id r)) (segments self))
         (withTrace
            (trace self
             ++ repeat UpdateSegments
                  (List.length (filter (Segments.hasId (heap self) id) (segments self))))
            self)).
Proof.
  unfold Segments.removeById, bind, gets.
  rewrite segments_forEach_remove. reflexivity.
Qed.

Lemma points_removeById_run (id : JsValue) (self : Peaks) :
  Points.removeById id self
  = Return tt
      (withPoints
         (filter (fun r => negb (Points.hasId (heap self) id r)) (points self))
         (withTrace
            (trace self
             ++ repeat RenderPoints
                  (List.length (filter (Points.hasId (heap self) id) (points self))))
            self)).
Proof.
  unfold Points.removeById, bind, gets.
  rewrite points_forEach_remove. reflexivity.
Qed.

(** X6. The number [removeByTime] returns is the number of records
    [getSegments()] (for points, [getPoints()]) has lost: returned count
    plus remaining length is the length before. Removing segments leaves
    the points, the heap and the zoom index alone, and removing points
    leaves the segments alone. *)
Theorem removeByTime_count_is_the_loss
    (startTime endTime timestamp : JsValue) (self : Peaks) :
  (exists n self' remaining,
      Segments.removeByTime startTime endTime self = Return n self'
      /\ Segments.getSegments self' = Return remaining self'
      /\ (n + List.length remaining)%nat = List.length (segments self)
      /\ points self' = points self /\ heap self' = heap self
      /\ currentZoomLevel self' = currentZoomLevel self)
  /\ (exists n self' remaining,
        Points.removeByTime timestamp self = Return n self'
        /\ Points.getPoints self' = Return remaining self'
        /\ (n + List.length remaining)%nat = List.length (points self)
        /\ segments self' = segments self /\ heap self' = heap self
        /\ currentZoomLevel self' = currentZoomLevel self).
Proof.
  split.
  - eexists. eexists. eexists.
    split; [apply segments_removeByTime_run |].
    split; [reflexivity |].
    split; [apply filter_lengths |].
    repeat split.
  - eexists. eexists. eexists.
    split; [apply points_removeByTime_run |].
    split; [reflexivity |].
    split; [apply filter_lengths |].
    repeat split.
Qed.

(** X7. Removing by time, or by id, a second time with the same arguments
    finds nothing: [removeByTime] returns 0 the second time, and the stored
    sequence is what the first call left. *)
Theorem removal_twice_is_removal_once
    (startTime endTime timestamp id : JsValue) (self : Peaks) :
  (exists self1 self2,
      Segments.removeByTime startTime endTime self
      = Return (List.length (segments self) - List.length (segments self1))%nat self1
      /\ Segments.removeByTime startTime endTime self1 = Return O self2
      /\ segments self2 = segments self1 /\ trace self2 = trace self1)
  /\ (exists self1 self2,
        Points.removeByTime timestamp self
        = Return (List.length (points self) - List.length (points self1))%nat self1
        /\ Points.removeByTime timestamp self1 = Return O self2
        /\ points self2 = points self1 /\ trace self2 = trace self1)
  /\ (exists self1 self2,
        Segments.removeById id self = Return tt self1
        /\ Segments.removeById id self1 = Return tt self2
        /\ segments self2 = segments self1 /\ trace self2 = trace self1)
  /\ (exists self1 self2,
        Points.removeById id self = Return tt self1
        /\ Points.removeById id self1 = Return tt self2
        /\ points self2 = points self1 /\ trace self2 = trace self1).
Proof.
  split; [| split; [| split]].
  - eexists. eexists.
    split.
    { rewrite segments_removeByTime_run. f_equal. cbn [segments withSegments].
      pose proof (filter_lengths (Segments.fnFilter (heap self) startTime endTime)
                    (segments self)). lia. }
    rewrite segments_removeByTime_run. cbn [heap segments withSegments withTrace trace].
    rewrite filter_of_rest, filter_rest_twice. cbn [List.length repeat].
    rewrite app_nil_r. repeat split.
  - eexists. eexists.
    split.
    { rewrite points_removeByTime_run. f_equal. cbn [points withPoints].
      pose proof (filter_lengths (Points.atTime (heap self) timestamp) (points self)).
      lia. }
    rewrite points_removeByTime_run. cbn [heap points withPoints withTrace trace].
    rewrite filter_of_rest, filter_rest_twice. cbn [List.length repeat].
    rewrite app_nil_r. repeat split.
  - eexists. eexists.
    split; [apply segments_removeById_run |].
    rewrite segments_removeById_run. cbn [heap segments withSegments withTrace trace].
    rewrite filter_of_rest, filter_rest_twice. cbn [List.length repeat].
    rewrite app_nil_r. repeat split.
  - eexists. eexists.
    split; [apply points_removeById_run |].
    rewrite points_removeById_run. cbn [heap points withPoints withTrace trace].
    rewrite filter_of_rest, filter_rest_twice. cbn [List.length repeat].
    rewrite app_nil_r. repeat split.
Qed.

Lemma strictEquals_nan (v : JsValue) : strictEquals v (VNumber S754_nan) = false.
Proof. destruct v as [| | b | x | s | r | name]; try reflexivity. destruct x; reflexivity. Qed.

Lemma withSegments_same (self : Peaks) : withSegments (segments self) self = self.
Proof. destruct self; reflexivity. Qed.

Lemma withPoints_same (self : Peaks) : withPoints (points self) self = self.
Proof. destruct self; reflexivity. Qed.

(** X8. NaN is equal to nothing, itself included: [removeByTime] with a NaN
    start time (for points, a NaN timestamp) returns 0, and [removeById]
    with a NaN id returns, with the instance left as it was, whatever the
    stored records hold. *)
Theorem removal_by_nan_finds_nothing (endTime : JsValue) (self : Peaks) :
  Segments.removeByTime (VNumber S754_nan) endTime self = Return O self
  /\ Points.removeByTime (VNumber S754_nan) self = Return O self
  /\ Segments.removeById (VNumber S754_nan) self = Return tt self
  /\ Points.removeById (VNumber S754_nan) self = Return tt self.
Proof.
  assert (Hseg : forall r,
             Segments.fnFilter (heap self) (VNumber S754_nan) endTime r = false).
  { intros r. unfold Segments.fnFilter. rewrite strictEquals_nan.
    destruct (greaterThanZero _); reflexivity. }
  split; [| split; [| split]].
  - rewrite segments_removeByTime_run.
    destruct (filter_none _ (segments self) (fun r _ => Hseg r)) as [-> ->].
    cbn. rewrite app_nil_r, withTrace_same, withSegments_same. reflexivity.
  - rewrite points_removeByTime_run.
    destruct (filter_none (Points.atTime (heap self) (VNumber S754_nan)) (points self)
                (fun r _ => strictEquals_nan _)) as [-> ->].
    cbn. rewrite app_nil_r, withTrace_same, withPoints_same. reflexivity.
  - rewrite segments_removeById_run.
    destruct (filter_none (Segments.hasId (heap self) (VNumber S754_nan)) (segments self)
                (fun r _ => strictEquals_nan _)) as [-> ->].
    cbn. rewrite app_nil_r, withTrace_same, withSegments_same. reflexivity.
  - rewrite points_removeById_run.
    destruct (filter_none (Points.hasId (heap self) (VNumber S754_nan)) (points self)
                (fun r _ => strictEquals_nan _)) as [-> ->].
    cbn. rewrite app_nil_r, withTrace_same, withPoints_same. reflexivity.
Qed.

Lemma removeFirst_gone (r : ref) (l : list ref) :
  NoDup l -> ~ In r (removeFirst r l).
Proof.
  induction 1 as [| x l Hx Hnd IH]; [intros [] |].
  cbn [removeFirst]. destruct (Nat.eqb_spec x r) as [-> | Hneq]; [exact Hx |].
  intros [Heq | Hin]; [congruence | exact (IH Hin)].
Qed.

(** X10. A record that is stored once can be removed once: the first
    [remove] returns it, a second [remove] of the same record throws a
    [RangeError] and leaves what the first call left. *)
Theorem remove_again_throws (r : ref) (self : Peaks) :
  (NoDup (segments self) -> In r (segments self) ->
     exists self1,
       Segments.remove (VObject r) self = Return (VObject r) self1
       /\ Segments.remove (VObject r) self1
          = Throw (mkError KRangeError "Unable to find the requested segment" (VObject r))
              self1)
  /\ (NoDup (points self) -> In r (points self) ->
        exists self1,
          Points.remove (VObject r) self = Return (VObject r) self1
          /\ Points.remove (VObject r) self1
             = Throw (mkError KRangeError "Unable to find the requested point" (VObject r))
                 self1).
Proof.
  destruct segments_laws as (S1 & S2 & S3 & S4 & S5).
  destruct points_laws as (P1 & P2 & P3 & P4 & P5).
  split; intros Hnd Hin; eexists.
  - split.
    + rewrite segments_remove_shape. apply removeFrom_found; assumption.
    + rewrite segments_remove_shape. apply removeFrom_missing; try assumption.
      intros r' [= <-]. cbn [segments withSegments]. apply removeFirst_gone, Hnd.
  - split.
    + rewrite points_remove_shape. apply removeFrom_found; assumption.
    + rewrite points_remove_shape. apply removeFrom_missing; try assumption.
      intros r' [= <-]. cbn [points withPoints]. apply removeFirst_gone, Hnd.
Qed.

(** X10 on the sample instance: the segment at address 3. *)
Lemma remove_again_throws_witness :
  NoDup (segments Sample.annotated) /\ In 3%nat (segments Sample.annotated)
  /\ exists self1,
       Segments.remove (VObject 3) Sample.annotated = Return (VObject 3) self1
       /\ Segments.remove (VObject 3) self1
          = Throw (mkError KRangeError "Unable to find the requested segment" (VObject 3))
              self1.
Proof.
  assert (Hnd : NoDup (segments Sample.annotated)).
  { cbn. repeat constructor; cbn; intuition discriminate. }
  assert (Hin : In 3%nat (segments Sample.annotated)) by (cbn; auto).
  split; [exact Hnd |]. split; [exact Hin |].
  exact (proj1 (remove_again_throws 3%nat Sample.annotated) Hnd Hin).
Defined.

End RemoveMoreFacts.

(** ** Batch adds, at their edges *)

Section AddMoreFacts.

Import Batch.

(** X11. When the first argument is an array whose first element is not a
    number, the arguments after it are ignored: the call does what the call
    with the array alone does, whether creation returns or throws. *)
Theorem add_ignores_arguments_after_an_array (create : Creator)
    (array : JsValue) (others : list JsValue) (self : Peaks) :
  isArray (heap self) array = true ->
  typeof (heap self) (arg (arrayElems (heap self) array) 0) <> "number" ->
  Segments.addSegment create (array :: others) self = Segments.addSegment create [array] self
  /\ Points.add create (array :: others) self = Points.add create [array] self.
Proof.
  intros Harr Hplain. apply String.eqb_neq in Hplain.
  assert (Hb : forall l, batch (heap self) (array :: l) = arrayElems (heap self) array).
  { intros l. unfold batch. cbn [arg nth]. rewrite Harr. reflexivity. }
  split.
  - rewrite !addSegment_plain by (rewrite Hb; exact Hplain). cbv zeta.
    rewrite !Hb. reflexivity.
  - rewrite !points_add_plain by (rewrite Hb; exact Hplain). cbv zeta.
    rewrite !Hb. reflexivity.
Qed.

(** X11 on the sample instance with the array of the segments 3 and 4 at
    address 8: a second argument changes nothing. *)
Lemma add_ignores_arguments_after_an_array_witness :
  Segments.addSegment Sample.validating [VObject 8; VObject 5]
    (withHeap (Sample.annotatedHeap ++ [mkObject ClsArray [] [VObject 3; VObject 4]])
       Sample.annotated)
  = Segments.addSegment Sample.validating [VObject 8]
      (withHeap (Sample.annotatedHeap ++ [mkObject ClsArray [] [VObject 3; VObject 4]])
         Sample.annotated).
Proof.
  apply (add_ignores_arguments_after_an_array Sample.validating (VObject 8) [VObject 5]
           (withHeap (Sample.annotatedHeap ++ [mkObject ClsArray [] [VObject 3; VObject 4]])
              Sample.annotated)).
  - reflexivity.
  - discriminate.
Defined.

(** X12. A legacy call on an instance whose deprecation logger is not a
    function throws a [TypeError] at the notice: nothing is created,
    nothing rendered, the instance is left as it was. *)
Theorem legacy_add_needs_a_callable_logger (create : Creator) (arguments : list JsValue)
    (self : Peaks) :
  typeof (heap self) (arg (batch (heap self) arguments) 0) = "number" ->
  typeof (heap self) (deprecationLogger self) <> "function" ->
  Segments.addSegment create arguments self
  = Throw (mkError KTypeError "is not a function" (deprecationLogger self)) self
  /\ Points.add create arguments self
     = Throw (mkError KTypeError "is not a function" (deprecationLogger self)) self.
Proof.
  intros Hlegacy Hfun. apply add_uncallable; [| exact Hfun].
  rewrite Hlegacy. reflexivity.
Qed.

(** X12 on the sample instance with a string for a deprecation logger. *)
Lemma legacy_add_needs_a_callable_logger_witness :
  Segments.addSegment Sample.validating [VNumber (num 1); VNumber (num 2)]
    (mkPeaks Sample.annotatedHeap Init.defaultZoomLevels (VString "log") Init.consoleError
       (VObject 1) 0 VUndefined [3; 4; 5]%nat [6; 7]%nat [])
  = Throw (mkError KTypeError "is not a function" (VString "log"))
      (mkPeaks Sample.annotatedHeap Init.defaultZoomLevels (VString "log") Init.consoleError
         (VObject 1) 0 VUndefined [3; 4; 5]%nat [6; 7]%nat []).
Proof.
  apply (legacy_add_needs_a_callable_logger Sample.validating
           [VNumber (num 1); VNumber (num 2)]
           (mkPeaks Sample.annotatedHeap Init.defaultZoomLevels (VString "log")
              Init.consoleError (VObject 1) 0 VUndefined [3; 4; 5]%nat [6; 7]%nat [])).
  - reflexivity.
  - discriminate.
Defined.

Lemma arg_firstn (n i : nat) (l : list JsValue) :
  i < n -> arg (firstn n l) i = arg l i.
Proof.
  revert i l. induction n as [| n IH]; intros i l Hlt; [lia |].
  destruct l as [| x l]; [reflexivity |].
  destruct i as [| i]; [reflexivity |].
  cbn [firstn]. unfold arg in *. cbn [nth]. apply IH. lia.
Qed.

Lemma typeof_number_not_array (h : Heap) (v : JsValue) :
  typeof h v = "number" -> isArray h v = false.
Proof.
  destruct v; try reflexivity; try discriminate.
  cbn. destruct (cls (deref h r)); try reflexivity; discriminate.
Qed.

(** X13. A legacy call reads five positional arguments for a segment and
    four for a point; what is passed beyond them makes no difference,
    whether creation returns or throws. *)
Theorem legacy_add_reads_a_fixed_number_of_arguments (create : Creator)
    (arguments : list JsValue) (self : Peaks) :
  typeof (heap self) (arg arguments 0) = "number" ->
  Segments.addSegment create arguments self
  = Segments.addSegment create (firstn 5 arguments) self
  /\ Points.add create arguments self = Points.add create (firstn 4 arguments) self.
Proof.
  intros Hnum.
  assert (Hb : forall n, 0 < n ->
             String.eqb (typeof (heap self) (arg (batch (heap self) (firstn n arguments)) 0))
               "number" = true).
  { intros n Hn. unfold batch. rewrite !arg_firstn by exact Hn.
    rewrite (typeof_number_not_array _ _ Hnum), arg_firstn by exact Hn.
    rewrite Hnum. reflexivity. }
  assert (Hb0 : String.eqb (typeof (heap self) (arg (batch (heap self) arguments) 0))
                  "number" = true).
  { unfold batch. rewrite (typeof_number_not_array _ _ Hnum), Hnum. reflexivity. }
  split.
  - rewrite !addSegment_step. rewrite Hb0, (Hb 5) by lia.
    rewrite !arg_firstn by lia. reflexivity.
  - rewrite !points_add_step. rewrite Hb0, (Hb 4) by lia.
    rewrite !arg_firstn by lia. reflexivity.
Qed.

(** X13 on the sample instance: a sixth argument is not read. *)
Lemma legacy_add_reads_a_fixed_number_of_arguments_witness :
  Segments.addSegment Sample.validating
    [VNumber (num 1); VNumber (num 2); VBoolean true; VString "red"; VString "intro";
     VString "more"] Sample.annotated
  = Segments.addSegment Sample.validating
      [VNumber (num 1); VNumber (num 2); VBoolean true; VString "red"; VString "intro"]
      Sample.annotated.
Proof.
  exact (proj1 (legacy_add_reads_a_fixed_number_of_arguments Sample.validating
                  [VNumber (num 1); VNumber (num 2); VBoolean true; VString "red";
                   VString "intro"; VString "more"] Sample.annotated eq_refl)).
Defined.

Lemma ready_segments (create : Creator) (given : JsValue) (self : Peaks) :
  (truthy given = true ->
   typeof (heap self) (arg (Ready.batchOf (heap self) given) 0) <> "number") ->
  (if truthy given then Segments.add create [given] else ret tt) self
  = if truthy given then
      let run := createAll create (Ready.batchOf (heap self) given) (heap self)
                   (segments self) in
      match failure run with
      | None =>
          Return tt
            (segmentsAfter run
               (map CreateSegment (Ready.batchOf (heap self) given) ++ [RenderSegments]) self)
      | Some e => Throw e (segmentsAfter run (map CreateSegment (attempted run)) self)
      end
    else Return tt self.
Proof.
  intros Hplain. destruct (truthy given); [| reflexivity].
  specialize (Hplain eq_refl). apply String.eqb_neq in Hplain.
  exact (addSegment_plain create [given] self Hplain).
Qed.

Lemma ready_points (create : Creator) (given : JsValue) (self : Peaks) :
  (truthy given = true ->
   typeof (heap self) (arg (Ready.batchOf (heap self) given) 0) <> "number") ->
  (if truthy given then Points.add create [given] else ret tt) self
  = if truthy given then
      let run := createAll create (Ready.batchOf (heap self) given) (heap self)
                   (points self) in
      match failure run with
      | None =>
          Return tt
            (pointsAfter run
               (map CreatePoint (Ready.batchOf (heap self) given) ++ [RenderPoints]) self)
      | Some e => Throw e (pointsAfter run (map CreatePoint (attempted run)) self)
      end
    else Return tt self.
Proof.
  intros Hplain. destruct (truthy given); [| reflexivity].
  specialize (Hplain eq_refl). apply String.eqb_neq in Hplain.
  exact (points_add_plain create [given] self Hplain).
Qed.

Lemma ready_run (createSegment createPoint : Creator) (givenSegments givenPoints : JsValue)
    (self : Peaks) :
  Ready.waveformOverviewReady createSegment createPoint givenSegments givenPoints self
  = bind
      (if truthy givenSegments then Segments.add createSegment [givenSegments] else ret tt)
      (fun _ => if truthy givenPoints then Points.add createPoint [givenPoints] else ret tt)
      (withTrace (trace self ++ [Called Ready.openZoomView []]) self).
Proof. reflexivity. Qed.

(** X14. When the overview is ready the listener opens the zoom view, then
    adds the [segments] option if it is truthy, then the [points] option if
    it is truthy. When no creation throws: one creation per record of the
    option, in order, and one render per kind; an option that is not given
    adds and renders nothing. When a creation of a segment throws, the
    listener ends with its error: no segment is rendered and no point is
    created. When a creation of a point throws, the segments are in and
    rendered, and no point is rendered. This holds for every pair of
    creation functions, when neither option starts with a number, which
    would make its add a legacy call. *)
Theorem ready_adds_the_initial_annotations (createSegment createPoint : Creator)
    (givenSegments givenPoints : JsValue) (self : Peaks) :
  let h := heap self in
  let opened := withTrace (trace self ++ [Called Ready.openZoomView []]) self in
  let s := createAll createSegment (Ready.batchOf h givenSegments) h (segments self) in
  let afterSegments :=
    if truthy givenSegments
    then segmentsAfter s
           (map CreateSegment (Ready.batchOf h givenSegments) ++ [RenderSegments]) opened
    else opened in
  let h' := heap afterSegments in
  let p := createAll createPoint (Ready.batchOf h' givenPoints) h' (points self) in
  let afterPoints :=
    if truthy givenPoints
    then pointsAfter p
           (map CreatePoint (Ready.batchOf h' givenPoints) ++ [RenderPoints]) afterSegments
    else afterSegments in
  (truthy givenSegments = true ->
   typeof h (arg (Ready.batchOf h givenSegments) 0) <> "number") ->
  (truthy givenPoints = true ->
   typeof h' (arg (Ready.batchOf h' givenPoints) 0) <> "number") ->
  ((truthy givenSegments = true -> failure s = None) ->
   (truthy givenPoints = true -> failure p = None) ->
   Ready.waveformOverviewReady createSegment createPoint givenSegments givenPoints self
   = Return tt afterPoints)
  /\ (forall e, truthy givenSegments = true -> failure s = Some e ->
        Ready.waveformOverviewReady createSegment createPoint givenSegments givenPoints self
        = Throw e (segmentsAfter s (map CreateSegment (attempted s)) opened))
  /\ (forall e, (truthy givenSegments = true -> failure s = None) ->
        truthy givenPoints = true -> failure p = Some e ->
        Ready.waveformOverviewReady createSegment createPoint givenSegments givenPoints self
        = Throw e (pointsAfter p (map CreatePoint (attempted p)) afterSegments)).
Proof.
  cbv zeta. intros Hsegments Hpoints.
  rewrite ready_run.
  set (opened := withTrace (trace self ++ [Called Ready.openZoomView []]) self) in *.
  pose proof (ready_segments createSegment givenSegments opened Hsegments) as Hfirst.
  cbv zeta in Hfirst. change (heap opened) with (heap self) in Hfirst.
  change (segments opened) with (segments self) in Hfirst.
  destruct (truthy givenSegments) eqn:Es.
  - destruct (failure (createAll createSegment (Ready.batchOf (heap self) givenSegments)
                         (heap self) (segments self))) as [e |] eqn:Hs.
    + split; [| split].
      * intros Hnone _. specialize (Hnone eq_refl). discriminate.
      * intros e' _ He'. replace e' with e by congruence. apply bind_throw. exact Hfirst.
      * intros e' Hnone _ _. specialize (Hnone eq_refl). discriminate.
    + erewrite bind_run by exact Hfirst.
      rewrite (ready_points createPoint givenPoints _ Hpoints). cbv zeta.
      change (points (segmentsAfter _ _ opened)) with (points self).
      destruct (truthy givenPoints) eqn:Ep.
      * match goal with
        | |- context [failure (createAll createPoint ?a ?b ?c)] =>
            destruct (failure (createAll createPoint a b c)) as [e |] eqn:Hp
        end; split; [| split | | split].
        -- intros _ Hnone. specialize (Hnone eq_refl). discriminate.
        -- intros e' _ He'. discriminate.
        -- intros e' _ _ He'. replace e' with e by congruence. reflexivity.
        -- intros _ _. reflexivity.
        -- intros e' _ He'. discriminate.
        -- intros e' _ _ He'. discriminate.
      * split; [| split].
        -- intros _ _. reflexivity.
        -- intros e' _ He'. discriminate.
        -- intros e' _ He'. discriminate.
  - erewrite bind_run by exact Hfirst.
    rewrite (ready_points createPoint givenPoints _ Hpoints). cbv zeta.
    change (points opened) with (points self).
    destruct (truthy givenPoints) eqn:Ep.
    + match goal with
        | |- context [failure (createAll createPoint ?a ?b ?c)] =>
            destruct (failure (createAll createPoint a b c)) as [e |] eqn:Hp
        end; split; [| split | | split].
      * intros _ Hnone. specialize (Hnone eq_refl). discriminate.
      * intros e' He'. discriminate.
      * intros e' _ _ He'. replace e' with e by congruence. reflexivity.
      * intros _ _. reflexivity.
      * intros e' He'. discriminate.
      * intros e' _ _ He'. discriminate.
    + split; [| split].
      * intros _ _. reflexivity.
      * intros e' He'. discriminate.
      * intros e' _ He'. discriminate.
Qed.

(** X14 on the sample instance, with the creator that rejects a segment
    which does not start before it ends: with the array of the segments 3
    and 4 at address 8 as [segments] option and no [points] option, both
    are created and the segments rendered; with the segment at address 8
    that ends before it starts as [segments] option and the point 6 as
    [points] option, the listener throws at the segment: no render, and no
    point created. *)
Lemma ready_adds_the_initial_annotations_witness :
  Ready.waveformOverviewReady Sample.validating Sample.accepting (VObject 8) VUndefined
    (withHeap (Sample.annotatedHeap ++ [mkObject ClsArray [] [VObject 3; VObject 4]])
       Sample.annotated)
  = Return tt
      (mkPeaks
         (Sample.annotatedHeap
          ++ [mkObject ClsArray [] [VObject 3; VObject 4];
              mkObject ClsObject
                [("startTime", VNumber (num 10)); ("endTime", VNumber (num 20))] [];
              mkObject ClsObject
                [("startTime", VNumber (num 10)); ("endTime", VNumber (num 30))] []])
         Init.defaultZoomLevels Init.consoleLog Init.consoleError (VObject 1) 0 VUndefined
         [3; 4; 5; 9; 10]%nat [6; 7]%nat
         [Called Ready.openZoomView []; CreateSegment (VObject 3); CreateSegment (VObject 4);
          RenderSegments])
  /\ Ready.waveformOverviewReady Sample.validating Sample.accepting (VObject 8) (VObject 6)
       Sample.withReversed
     = Throw (Sample.invalidRange (VObject 8))
         (withTrace [Called Ready.openZoomView []; CreateSegment (VObject 8)]
            Sample.withReversed).
Proof.
  pose proof (ready_adds_the_initial_annotations Sample.validating Sample.accepting
                (VObject 8) VUndefined
                (withHeap
                   (Sample.annotatedHeap ++ [mkObject ClsArray [] [VObject 3; VObject 4]])
                   Sample.annotated)) as H1.
  pose proof (ready_adds_the_initial_annotations Sample.validating Sample.accepting
                (VObject 8) (VObject 6) Sample.withReversed) as H2.
  cbv zeta in H1, H2.
  split.
  - refine (proj1 (H1 _ _) _ _).
    + intros _. discriminate.
    + intros Habsurd. discriminate Habsurd.
    + intros _. reflexivity.
    + intros Habsurd. discriminate Habsurd.
  - refine (proj1 (proj2 (H2 _ _)) (Sample.invalidRange (VObject 8)) eq_refl eq_refl).
    + intros _. discriminate.
    + intros _. discriminate.
Defined.

End AddMoreFacts.

(** ** Merging options *)

Section OptionsFacts.

Import Init Options.

Lemma deref_set_other (r : ref) (k : string) (v : JsValue) (h : Heap) (x : ref) :
  x <> r -> deref (set r k v h) x = deref h x.
Proof.
  intros Hneq. unfold set. rewrite deref_update.
  destruct (Nat.eqb_spec r x) as [-> | _]; [congruence | reflexivity].
Qed.

Lemma elems_set (r : ref) (k : string) (v : JsValue) (h : Heap) (x : ref) :
  elems (deref (set r k v h) x) = elems (deref h x).
Proof.
  unfold set. rewrite deref_update.
  destruct (Nat.eqb r x && Nat.ltb r (List.length h))%bool; reflexivity.
Qed.

Lemma length_update (f : JsObject -> JsObject) (h : Heap) :
  forall r, List.length (update r f h) = List.length h.
Proof.
  induction h as [| o h IH]; intros r; destruct r; cbn; try reflexivity.
  rewrite IH. reflexivity.
Qed.

Lemma length_set (r : ref) (k : string) (v : JsValue) (h : Heap) :
  List.length (set r k v h) = List.length h.
Proof. apply length_update. Qed.

Lemma getProp_set (r : ref) (k k' : string) (v : JsValue) (h : Heap) :
  r < List.length h ->
  getProp (deref (set r k v h) r) k'
  = if String.eqb k' k then v else getProp (deref h r) k'.
Proof.
  intros Hlt. destruct (String.eqb_spec k' k) as [-> | Hneq].
  - apply getProp_set_same. exact Hlt.
  - apply getProp_set_other. exact Hneq.
Qed.

Lemma hasKey_keys (h : Heap) (r : ref) (k : string) :
  hasKey h (VObject r) k = existsb (String.eqb k) (keys h r).
Proof.
  unfold hasKey, keys. induction (props (deref h r)) as [| [k' v] l IH]; [reflexivity |].
  cbn. destruct (String.eqb k k'); [reflexivity | exact IH].
Qed.

Lemma bind_world_run {A B : Type} (m : M World A) (k : A -> M World B)
    (w w' : World) (a : A) :
  m w = Return a w' -> bind m k w = k a w'.
Proof. intros H. unfold bind. rewrite H. reflexivity. Qed.

Lemma extend_run (to from : ref) (w : World) :
  extend to from w
  = Return (VObject to)
      (mkWorld (copyKeys to from (keys (wheap w) from) (wheap w)) (weffects w)).
Proof.
  unfold extend. unfold bind at 1. unfold gets at 1.
  generalize (keys (wheap w) from) as ks. intros ks. revert w.
  induction ks as [| k ks IH]; intros [h eff].
  - reflexivity.
  - cbn [forEach copyKeys wheap weffects] in *.
    unfold bind at 2. unfold bind at 2. unfold gets at 1. unfold assign, modify.
    cbn [wheap weffects].
    specialize (IH (mkWorld (set to k (get h (VObject from) k) h) eff)).
    cbn [wheap weffects] in IH. exact IH.
Qed.

(** What the loop of [extend] does to a heap on which [to] is an object. *)
Lemma copyKeys_spec (to from : ref) (ks : list string) :
  forall h,
    to < List.length h ->
    (forall k,
        getProp (deref (copyKeys to from ks h) to) k
        = if existsb (String.eqb k) ks then getProp (deref h from) k
          else getProp (deref h to) k)
    /\ (forall x, x <> to -> deref (copyKeys to from ks h) x = deref h x)
    /\ List.length (copyKeys to from ks h) = List.length h
    /\ (forall x, cls (deref (copyKeys to from ks h) x) = cls (deref h x))
    /\ (forall x, elems (deref (copyKeys to from ks h) x) = elems (deref h x)).
Proof.
  induction ks as [| k0 ks IH]; intros h Hlt; cbn [copyKeys existsb].
  - repeat split.
  - remember (set to k0 (get h (VObject from) k0) h) as h1 eqn:Eh1.
    assert (Hlt1 : to < List.length h1) by (rewrite Eh1, length_set; exact Hlt).
    destruct (IH h1 Hlt1) as (Hget & Hother & Hlen & Hcls & Helems).
    assert (Hfrom : forall k, getProp (deref h1 from) k = getProp (deref h from) k).
    { intros k. rewrite Eh1. destruct (Nat.eq_dec from to) as [-> | Hneq].
      - rewrite getProp_set by exact Hlt. cbn [get].
        destruct (String.eqb_spec k k0) as [-> | _]; reflexivity.
      - rewrite deref_set_other by exact Hneq. reflexivity. }
    split; [| split; [| split; [| split]]].
    + intros k. rewrite Hget, Hfrom.
      destruct (existsb (String.eqb k) ks); [rewrite orb_true_r; reflexivity |].
      rewrite orb_false_r. rewrite Eh1, getProp_set by exact Hlt.
      destruct (String.eqb_spec k k0) as [-> | _]; reflexivity.
    + intros x Hx. rewrite Hother by exact Hx. rewrite Eh1.
      apply deref_set_other. exact Hx.
    + rewrite Hlen, Eh1. apply length_set.
    + intros x. rewrite Hcls, Eh1. apply cls_set.
    + intros x. rewrite Helems, Eh1. apply elems_set.
Qed.

(** X15. For two plain objects (as object literals make them: nothing
    inherited that the loop would visit, no indexed elements, no key
    ["__proto__"]), [extend(to, from)] returns [to]; afterwards [to] reads,
    at every key [from] has, what [from] reads there (also when that is
    [undefined]), and at every other key what it read before. No other
    object is changed, [from] included, and nothing is logged. The copy is
    shallow: a value that is an object is shared, not merged. *)
Theorem extend_overwrites_the_keys_of_from (to from : ref) (w : World) :
  to < List.length (wheap w) ->
  plain (wheap w) to = true ->
  plain (wheap w) from = true ->
  exists w',
    extend to from w = Return (VObject to) w'
    /\ weffects w' = weffects w
    /\ (forall k,
          get (wheap w') (VObject to) k
          = if hasKey (wheap w) (VObject from) k then get (wheap w) (VObject from) k
            else get (wheap w) (VObject to) k)
    /\ (forall x, x <> to -> deref (wheap w') x = deref (wheap w) x)
    /\ List.length (wheap w') = List.length (wheap w).
Proof.
  intros Hlt _ _. eexists. split; [apply extend_run |].
  destruct (copyKeys_spec to from (keys (wheap w) from) (wheap w) Hlt)
    as (Hget & Hother & Hlen & _ & _).
  cbn [wheap weffects].
  split; [reflexivity |].
  split; [| split; [exact Hother | exact Hlen]].
  intros k. cbn [get]. rewrite Hget, hasKey_keys. reflexivity.
Qed.

(** X15 on two small objects: [keyboard] is overwritten, [logger] arrives
    with its value [undefined], [height] stays. *)
Lemma extend_overwrites_the_keys_of_from_witness :
  exists w',
    extend 0 1
      (mkWorld
         [mkObject ClsObject [("height", VNumber (num 200)); ("keyboard", VBoolean false)] [];
          mkObject ClsObject [("keyboard", VBoolean true); ("logger", VUndefined)] []] [])
    = Return (VObject 0) w'
    /\ get (wheap w') (VObject 0) "keyboard" = VBoolean true
    /\ hasKey (wheap w') (VObject 0) "logger" = true
    /\ get (wheap w') (VObject 0) "height" = VNumber (num 200)
    /\ deref (wheap w') 1
       = mkObject ClsObject [("keyboard", VBoolean true); ("logger", VUndefined)] [].
Proof.
  destruct (extend_overwrites_the_keys_of_from 0 1
              (mkWorld
                 [mkObject ClsObject
                    [("height", VNumber (num 200)); ("keyboard", VBoolean false)] [];
                  mkObject ClsObject
                    [("keyboard", VBoolean true); ("logger", VUndefined)] []] []))
    as (w' & Hrun & _ & Hget & Hother & _).
  { cbn. lia. }
  { reflexivity. }
  { reflexivity. }
  exists w'. split; [exact Hrun |].
  rewrite !Hget, Hother by discriminate.
  split; [reflexivity |].
  split; [| split; reflexivity].
  rewrite extend_run in Hrun. injection Hrun as <-. reflexivity.
Defined.







End OptionsFacts.

(** ** Start-up, beyond its checks *)

Section InitMoreFacts.

Import Init InitParts.

Lemma get_set_other (r : ref) (k k' : string) (v x : JsValue) (h : Heap) :
  k' <> k -> get (set r k v h) x k' = get h x k'.
Proof.
  intros Hneq. destruct x; try reflexivity. cbn [get].
  apply getProp_set_other. exact Hneq.
Qed.

Lemma typeof_set (r : ref) (k : string) (v x : JsValue) (h : Heap) :
  typeof (set r k v h) x = typeof h x.
Proof. destruct x; try reflexivity. cbn. rewrite cls_set. reflexivity. Qed.

Lemma instanceofHTMLMediaElement_set (r : ref) (k : string) (v x : JsValue) (h : Heap) :
  instanceofHTMLMediaElement (set r k v h) x = instanceofHTMLMediaElement h x.
Proof. destruct x; try reflexivity. cbn. rewrite cls_set. reflexivity. Qed.


Lemma arrayElems_set (r : ref) (k : string) (v x : JsValue) (h : Heap) :
  arrayElems (set r k v h) x = arrayElems h x.
Proof. destruct x; try reflexivity. cbn. apply elems_set. Qed.


Lemma truthy_get_valid (h : Heap) (r : ref) (k : string) :
  truthy (get h (VObject r) k) = true -> r < List.length h.
Proof.
  intros Ht. destruct (Nat.lt_ge_cases r (List.length h)) as [Hlt | Hge]; [exact Hlt |].
  cbn [get] in Ht. rewrite getProp_dangling in Ht by exact Hge. discriminate.
Qed.

(** Lines 201-207 on an options object, step by step. *)
Lemma prepare_object_exact (r : ref) (w : World) :
  let h := wheap w in
  let opts := VObject r in
  prepare opts w
  = if truthy (get h opts "audioElement") then
      if String.eqb (typeof h (loggerOf h opts)) "function" then
        Return opts
          (mkWorld (prepared h r) (weffects w ++ [Called (loggerOf h opts) [audioNotice]]))
      else
        Throw (mkError KTypeError "is not a function" (loggerOf h opts))
          (mkWorld (prepared h r) (weffects w))
    else Return opts (mkWorld (prepared h r) (weffects w)).
Proof.
  cbv zeta. destruct w as [h eff]. cbn [wheap weffects].
  unfold prepare, bind, ret, gets, assign, modify; cbn [truthy wheap weffects].
  fold (loggerOf h (VObject r)). unfold prepared.
  rewrite (get_set_other r "deprecationLogger" "audioElement") by discriminate.
  destruct (truthy (get h (VObject r) "audioElement")) eqn:Eaudio; [| reflexivity].
  pose proof (truthy_get_valid _ _ _ Eaudio) as Hvalid.
  unfold apply, bind, gets, modify, throw; cbn [wheap weffects].
  rewrite (get_set_other r "mediaElement" "deprecationLogger") by discriminate.
  cbn [get]. rewrite getProp_set_same by exact Hvalid.
  rewrite !typeof_set.
  destruct (String.eqb (typeof h (loggerOf h (VObject r))) "function"); reflexivity.
Qed.

Lemma typeof_prepared (h : Heap) (r : ref) (x : JsValue) :
  typeof (prepared h r) x = typeof h x.
Proof.
  unfold prepared. destruct (truthy _); rewrite ?typeof_set; reflexivity.
Qed.

Lemma instanceofHTMLMediaElement_prepared (h : Heap) (r : ref) (x : JsValue) :
  instanceofHTMLMediaElement (prepared h r) x = instanceofHTMLMediaElement h x.
Proof.
  unfold prepared. destruct (truthy _); rewrite ?instanceofHTMLMediaElement_set;
    reflexivity.
Qed.


Lemma get_prepared (h : Heap) (r : ref) (x : JsValue) (k : string) :
  k <> "deprecationLogger" -> k <> "mediaElement" ->
  get (prepared h r) x k = get h x k.
Proof.
  intros H1 H2. unfold prepared.
  destruct (truthy _); rewrite ?get_set_other by assumption; reflexivity.
Qed.


Lemma mediaElement_prepared (h : Heap) (r : ref) :
  get (prepared h r) (VObject r) "mediaElement" = mediaElementOf h (VObject r).
Proof.
  unfold prepared, mediaElementOf.
  destruct (truthy (get h (VObject r) "audioElement")) eqn:Eaudio.
  - pose proof (truthy_get_valid _ _ _ Eaudio) as Hvalid.
    cbn [get]. apply getProp_set_same. rewrite length_set. exact Hvalid.
  - apply get_set_other. discriminate.
Qed.

Lemma deprecationLogger_prepared (h : Heap) (r : ref) :
  r < List.length h ->
  get (prepared h r) (VObject r) "deprecationLogger" = loggerOf h (VObject r).
Proof.
  intros Hvalid. unfold prepared.
  destruct (truthy (get h (VObject r) "audioElement")).
  - rewrite get_set_other by discriminate. cbn [get].
    apply getProp_set_same. exact Hvalid.
  - cbn [get]. apply getProp_set_same. exact Hvalid.
Qed.

(** The checks, read on the heap the caller passed. *)
Lemma checks_prepared (r : ref) (h : Heap) (eff : list Effect) :
  let opts := VObject r in
  let w' := mkWorld (prepared h r) eff in
  checks opts w'
  = if negb (truthy (mediaElementOf h opts)) then Throw noMediaElement w'
    else if negb (instanceofHTMLMediaElement h (mediaElementOf h opts)) then
      Throw notMediaElement w'
    else if negb (truthy (get h opts "container")) then Throw noContainer w'
    else if negb (greaterThanZero (get h (get h opts "container") "clientWidth")) then
      Throw noWidth w'
    else if truthy (get h opts "logger")
            && negb (String.eqb (typeof h (get h opts "logger")) "function") then
      Throw badLogger w'
    else construct opts w'.
Proof.
  cbv zeta. unfold checks, bind, gets, throw. cbn [wheap].
  rewrite mediaElement_prepared, instanceofHTMLMediaElement_prepared.
  rewrite (get_prepared h r (VObject r) "container") by discriminate.
  rewrite (get_prepared h r _ "clientWidth") by discriminate.
  rewrite (get_prepared h r (VObject r) "logger") by discriminate.
  rewrite typeof_prepared.
  repeat match goal with |- context [if ?b then _ else _] => destruct b end;
    reflexivity.
Qed.

(** Where [init] stands after lines 201-207, for an options object whose
    deprecation logger can take the notice. *)
Lemma init_after_lines_201_207 (r : ref) (w : World) :
  let h := wheap w in
  let opts := VObject r in
  (truthy (get h opts "audioElement") = true ->
   typeof h (loggerOf h opts) = "function") ->
  init opts w
  = checks opts
      (mkWorld (prepared h r)
         (weffects w
          ++ (if truthy (get h opts "audioElement")
              then [Called (loggerOf h opts) [audioNotice]] else []))).
Proof.
  cbv zeta. intros Hlogger. unfold init.
  apply bind_world_run. rewrite prepare_object_exact. cbv zeta.
  destruct (truthy (get (wheap w) (VObject r) "audioElement")).
  - rewrite (Hlogger eq_refl). reflexivity.
  - rewrite app_nil_r. reflexivity.
Qed.



(** X18. [Peaks.init] called with something that is not an object for
    options. A falsy argument ([undefined], [null], 0, ...) is replaced by
    an empty object and the call throws the [Error] for the missing media
    element. A truthy number, string or boolean makes the first assignment
    throw a [TypeError], with nothing changed. A function of the host takes
    the assignment, has no media element, and the call throws the [Error]
    for the missing media element, with nothing changed but the function. *)
Theorem init_without_an_options_object (opts : JsValue) (w : World) :
  (forall r, opts <> VObject r) ->
  (truthy opts = false -> exists w', init opts w = Throw noMediaElement w')
  /\ (truthy opts = true -> typeof (wheap w) opts <> "function" ->
        init opts w
        = Throw (mkError KTypeError "Cannot create property" opts) w)
  /\ (typeof (wheap w) opts = "function" -> init opts w = Throw noMediaElement w).
Proof.
  intros Hprim. split; [| split].
  - intros Htruthy.
    assert (Hinit : init opts w
                    = init (VObject (List.length (wheap w)))
                        (mkWorld (wheap w ++ [emptyObject]) (weffects w))).
    { unfold init, bind. rewrite (prepare_default _ _ Htruthy). reflexivity. }
    rewrite Hinit.
    remember (mkWorld (wheap w ++ [emptyObject]) (weffects w)) as w0 eqn:Ew0.
    remember (List.length (wheap w)) as r eqn:Er.
    assert (Hnone : forall k, get (wheap w0) (VObject r) k = VUndefined).
    { intros k. rewrite Ew0, Er. unfold get. cbn [wheap]. rewrite deref_alloc_empty.
      apply getProp_dangling. apply Nat.le_refl. }
    rewrite (init_after_lines_201_207 r w0)
      by (rewrite Hnone; intros Habsurd; discriminate Habsurd).
    rewrite checks_prepared. cbv zeta. unfold mediaElementOf. rewrite !Hnone.
    eexists. reflexivity.
  - intros Htruthy Hfun. unfold init, bind, prepare, bind, ret. rewrite Htruthy.
    destruct opts; try discriminate; try reflexivity.
    + exfalso. apply (Hprim r). reflexivity.
    + exfalso. apply Hfun. reflexivity.
  - intros Hfun. destruct opts; try discriminate.
    + exfalso. apply (Hprim r). reflexivity.
    + unfold init. unfold bind at 1. rewrite prepare_native.
      destruct w; reflexivity.
Qed.

(** X18 on the sample world: [Peaks.init()], [Peaks.init(5)] and
    [Peaks.init(console.log.bind(console))]. *)
Lemma init_without_an_options_object_witness :
  (exists w', init VUndefined Sample.world = Throw noMediaElement w')
  /\ init (VNumber (num 5)) Sample.world
     = Throw (mkError KTypeError "Cannot create property" (VNumber (num 5))) Sample.world
  /\ init consoleLog Sample.world = Throw noMediaElement Sample.world.
Proof.
  split; [| split].
  - apply (init_without_an_options_object VUndefined Sample.world);
      [intros r; discriminate | reflexivity].
  - apply (init_without_an_options_object (VNumber (num 5)) Sample.world);
      [intros r; discriminate | reflexivity | discriminate].
  - apply (init_without_an_options_object consoleLog Sample.world);
      [intros r; discriminate | reflexivity].
Defined.

(** X19. With the deprecated [audioElement] option and a deprecation logger
    that is not a function, [Peaks.init] throws a [TypeError] at the notice,
    whatever else the options hold; by then it has written the logger and
    the media element into the caller's options. *)
Theorem init_audioElement_needs_a_callable_logger (r : ref) (w : World) :
  let h := wheap w in
  let opts := VObject r in
  truthy (get h opts "audioElement") = true ->
  typeof h (loggerOf h opts) <> "function" ->
  exists w',
    init opts w = Throw (mkError KTypeError "is not a function" (loggerOf h opts)) w'
    /\ weffects w' = weffects w
    /\ get (wheap w') opts "mediaElement" = get h opts "audioElement"
    /\ get (wheap w') opts "deprecationLogger" = loggerOf h opts.
Proof.
  cbv zeta. intros Haudio Hfun. apply String.eqb_neq in Hfun.
  eexists. split.
  { unfold init, bind. rewrite prepare_object_exact. cbv zeta.
    rewrite Haudio, Hfun. reflexivity. }
  cbn [wheap weffects]. split; [reflexivity |].
  pose proof (truthy_get_valid _ _ _ Haudio) as Hvalid.
  split.
  - rewrite mediaElement_prepared. unfold mediaElementOf. rewrite Haudio. reflexivity.
  - apply deprecationLogger_prepared. exact Hvalid.
Qed.

(** X19 on options that name an audio element and a string for a
    deprecation logger. *)
Lemma init_audioElement_needs_a_callable_logger_witness :
  exists w',
    init (VObject 1)
      (mkWorld
         [Sample.mediaElement;
          mkObject ClsObject
            [("audioElement", VObject 0); ("deprecationLogger", VString "log")] []] [])
    = Throw (mkError KTypeError "is not a function" (VString "log")) w'.
Proof.
  destruct (init_audioElement_needs_a_callable_logger 1
              (mkWorld
                 [Sample.mediaElement;
                  mkObject ClsObject
                    [("audioElement", VObject 0); ("deprecationLogger", VString "log")] []]
                 []))
    as (w' & Hrun & _).
  - reflexivity.
  - discriminate.
  - exists w'. exact Hrun.
Defined.





End InitMoreFacts.

(** ** Ids are compared without conversion *)

Section IdFacts.

(** X22. [removeById] compares with [===]: given a string it removes no
    record whose id is a number, even one that prints as that string, and
    given a number none whose id is a string. For such a store the call
    returns with the instance left as it was. *)
Theorem removeById_does_not_convert (self : Peaks) :
  let h := heap self in
  let numbered l := forall r, In r l -> exists x, get h (VObject r) "id" = VNumber x in
  let named l := forall r, In r l -> exists s, get h (VObject r) "id" = VString s in
  (forall s, numbered (segments self) ->
     Segments.removeById (VString s) self = Return tt self)
  /\ (forall s, numbered (points self) ->
        Points.removeById (VString s) self = Return tt self)
  /\ (forall x, named (segments self) ->
        Segments.removeById (VNumber x) self = Return tt self)
  /\ (forall x, named (points self) ->
        Points.removeById (VNumber x) self = Return tt self).
Proof.
  cbv zeta.
  split; [| split; [| split]].
  - intros s Hids. rewrite segments_removeById_run.
    destruct (filter_none (Segments.hasId (heap self) (VString s)) (segments self))
      as [-> ->].
    { intros r Hin. destruct (Hids r Hin) as [x Hx].
      unfold Segments.hasId. rewrite Hx. reflexivity. }
    cbn. rewrite app_nil_r, withTrace_same, withSegments_same. reflexivity.
  - intros s Hids. rewrite points_removeById_run.
    destruct (filter_none (Points.hasId (heap self) (VString s)) (points self))
      as [-> ->].
    { intros r Hin. destruct (Hids r Hin) as [x Hx].
      unfold Points.hasId. rewrite Hx. reflexivity. }
    cbn. rewrite app_nil_r, withTrace_same, withPoints_same. reflexivity.
  - intros x Hids. rewrite segments_removeById_run.
    destruct (filter_none (Segments.hasId (heap self) (VNumber x)) (segments self))
      as [-> ->].
    { intros r Hin. destruct (Hids r Hin) as [s Hs].
      unfold Segments.hasId. rewrite Hs. reflexivity. }
    cbn. rewrite app_nil_r, withTrace_same, withSegments_same. reflexivity.
  - intros x Hids. rewrite points_removeById_run.
    destruct (filter_none (Points.hasId (heap self) (VNumber x)) (points self))
      as [-> ->].
    { intros r Hin. destruct (Hids r Hin) as [s Hs].
      unfold Points.hasId. rewrite Hs. reflexivity. }
    cbn. rewrite app_nil_r, withTrace_same, withPoints_same. reflexivity.
Qed.

(** X22 on the sample instance, whose segments have the ids 1, 2 and 3:
    [removeById("2")] removes nothing. *)
Lemma removeById_does_not_convert_witness :
  Segments.removeById (VString "2") Sample.annotated = Return tt Sample.annotated.
Proof.
  pose proof (removeById_does_not_convert Sample.annotated) as H.
  cbv zeta in H. destruct H as (Hstring & _).
  apply Hstring. intros r Hin. cbn in Hin.
  destruct Hin as [<- | [<- | [<- | []]]]; eexists; reflexivity.
Defined.

End IdFacts.
